(** * NewsScraper: the TechCrunch page scraper and its text helpers

    A shallow embedding of [src/utils.py] and of the fetch / parse / page-loop
    pipeline of [src/scraper.py], followed by the properties stated about
    them. *)

From Stdlib Require Import Ascii String DecimalString DecimalPos DecimalZ.
From Stdlib Require Import List ZArith NArith Lia Bool.
Import ListNotations.

Local Open Scope Z_scope.

(* ================================================================== *)
(** * Python strings *)
(* ================================================================== *)

(** A Python [str] is a sequence of Unicode code points. *)
Definition pystr : Type := list N.

(** A literal, from its ASCII characters. *)
Definition str (s : string) : pystr :=
  map N_of_ascii (list_ascii_of_string s).

Definition pystr_eqb (a b : pystr) : bool :=
  if list_eq_dec N.eq_dec a b then true else false.

(** Truthiness of a [str]: the empty string is falsy. *)
Definition truthy (s : pystr) : bool :=
  match s with [] => false | _ :: _ => true end.

(** [str.isspace] on one code point: the characters that [str.strip()] and
    [str.split()] without argument treat as whitespace. *)
Definition isspace (c : N) : bool :=
  (((9 <=? c) && (c <=? 13)) || ((28 <=? c) && (c <=? 32))
   || (c =? 133) || (c =? 160) || (c =? 5760)
   || ((8192 <=? c) && (c <=? 8202))
   || (c =? 8232) || (c =? 8233) || (c =? 8239) || (c =? 8287)
   || (c =? 12288))%N.

Definition SPACE : N := 32%N.

Fixpoint lstrip (s : pystr) : pystr :=
  match s with
  | [] => []
  | c :: r => if isspace c then lstrip r else s
  end.

Definition rstrip (s : pystr) : pystr := rev (lstrip (rev s)).

(** [s.strip()] *)
Definition strip (s : pystr) : pystr := rstrip (lstrip s).

(** [s.split()]: the maximal runs of non-whitespace characters of [s], in
    order.  [cur] holds the characters of the run being read, last first. *)
Fixpoint split_from (cur : pystr) (s : pystr) : list pystr :=
  match s with
  | [] => match cur with [] => [] | _ :: _ => [rev cur] end
  | c :: r =>
      if isspace c
      then match cur with
           | [] => split_from [] r
           | _ :: _ => rev cur :: split_from [] r
           end
      else split_from (c :: cur) r
  end.

Definition split (s : pystr) : list pystr := split_from [] s.

(** [sep.join(parts)] *)
Fixpoint join (sep : pystr) (parts : list pystr) : pystr :=
  match parts with
  | [] => []
  | [p] => p
  | p :: rest => p ++ sep ++ join sep rest
  end.

(** [s.startswith(prefix)] *)
Fixpoint startswith (s prefix : pystr) : bool :=
  match prefix, s with
  | [], _ => true
  | _ :: _, [] => false
  | p :: prefix', c :: s' => (p =? c)%N && startswith s' prefix'
  end.

(** [s.replace(old, new)] for a one-character [old]. *)
Definition replace_char (old : N) (new : pystr) (s : pystr) : pystr :=
  flat_map (fun c => if (c =? old)%N then new else [c]) s.

(** [str(n)] and [f"{n}"] for an [int]. *)
Definition str_of_Z (n : Z) : pystr :=
  str (NilZero.string_of_int (Z.to_int n)).

(** [str(n)] for a list length. *)
Definition str_of_nat (n : nat) : pystr := str_of_Z (Z.of_nat n).

(* ================================================================== *)
(** * utils.py *)
(* ================================================================== *)

Definition clean_text (text : pystr) : pystr :=
  if negb (truthy text) then []
  else join [SPACE] (split (strip text)).

(** ** [text.encode('utf-8')] *)

(** The UTF-8 bytes of one code point.  Texts are decoded documents, whose
    code points are Unicode scalar values (at most U+10FFFF, no lone
    surrogate), on which the strict encoder of Python is total. *)
Definition utf8_of_code_point (c : N) : list Z :=
  let z := Z.of_N c in
  if z <? 128 then [z]
  else if z <? 2048 then
    [Z.lor 192 (Z.shiftr z 6); Z.lor 128 (Z.land z 63)]
  else if z <? 65536 then
    [Z.lor 224 (Z.shiftr z 12);
     Z.lor 128 (Z.land (Z.shiftr z 6) 63);
     Z.lor 128 (Z.land z 63)]
  else
    [Z.lor 240 (Z.shiftr z 18);
     Z.lor 128 (Z.land (Z.shiftr z 12) 63);
     Z.lor 128 (Z.land (Z.shiftr z 6) 63);
     Z.lor 128 (Z.land z 63)].

Definition encode_utf8 (s : pystr) : list Z := flat_map utf8_of_code_point s.

(** ** [hashlib.md5], after RFC 1321, on bytes held as [Z] and 32-bit words
    held as [Z] with the wrap-around written out. *)
Module Md5.

Definition mask32 : Z := 4294967295.
Definition wrap (x : Z) : Z := Z.land x mask32.
Definition add32 (x y : Z) : Z := wrap (x + y).
Definition not32 (x : Z) : Z := Z.lxor x mask32.
Definition rotl32 (x : Z) (c : Z) : Z :=
  wrap (Z.lor (Z.shiftl x c) (Z.shiftr x (32 - c))).

Definition K : list Z :=
  [3614090360; 3905402710; 606105819; 3250441966;
   4118548399; 1200080426; 2821735955; 4249261313;
   1770035416; 2336552879; 4294925233; 2304563134;
   1804603682; 4254626195; 2792965006; 1236535329;
   4129170786; 3225465664; 643717713; 3921069994;
   3593408605; 38016083; 3634488961; 3889429448;
   568446438; 3275163606; 4107603335; 1163531501;
   2850285829; 4243563512; 1735328473; 2368359562;
   4294588738; 2272392833; 1839030562; 4259657740;
   2763975236; 1272893353; 4139469664; 3200236656;
   681279174; 3936430074; 3572445317; 76029189;
   3654602809; 3873151461; 530742520; 3299628645;
   4096336452; 1126891415; 2878612391; 4237533241;
   1700485571; 2399980690; 4293915773; 2240044497;
   1873313359; 4264355552; 2734768916; 1309151649;
   4149444226; 3174756917; 718787259; 3951481745].

Definition S : list Z :=
  [7; 12; 17; 22; 7; 12; 17; 22; 7; 12; 17; 22; 7; 12; 17; 22;
   5; 9; 14; 20; 5; 9; 14; 20; 5; 9; 14; 20; 5; 9; 14; 20;
   4; 11; 16; 23; 4; 11; 16; 23; 4; 11; 16; 23; 4; 11; 16; 23;
   6; 10; 15; 21; 6; 10; 15; 21; 6; 10; 15; 21; 6; 10; 15; 21].

(** The message followed by the bit 1, zero bits up to 56 modulo 64
    bytes, and the bit length on 64 bits, low byte first. *)
Definition le_bytes (count : nat) (x : Z) : list Z :=
  map (fun i => Z.land (Z.shiftr x (8 * Z.of_nat i)) 255) (seq 0 count).

Definition pad (msg : list Z) : list Z :=
  let len := Z.of_nat (length msg) in
  let zeros := Z.to_nat ((55 - len) mod 64) in
  msg ++ [128] ++ repeat 0 zeros ++ le_bytes 8 ((8 * len) mod 2 ^ 64).

Definition le_word (bytes : list Z) : Z :=
  fold_right (fun b acc => b + 256 * acc) 0 bytes.

(** The sixteen words of the [i]-th 64-byte block. *)
Definition block_words (padded : list Z) (i : nat) : list Z :=
  let block := firstn 64 (skipn (64 * i) padded) in
  map (fun j => le_word (firstn 4 (skipn (4 * j) block))) (seq 0 16).

Definition regs : Type := (Z * Z * Z * Z)%type.

Definition init : regs := (1732584193, 4023233417, 2562383102, 271733878).

Definition round (M : list Z) (r : regs) (i : nat) : regs :=
  let '(A, B, C, D) := r in
  let iz := Z.of_nat i in
  let '(F, g) :=
    if iz <? 16 then (Z.lor (Z.land B C) (Z.land (not32 B) D), iz)
    else if iz <? 32 then
      (Z.lor (Z.land D B) (Z.land (not32 D) C), (5 * iz + 1) mod 16)
    else if iz <? 48 then (Z.lxor (Z.lxor B C) D, (3 * iz + 5) mod 16)
    else (Z.lxor C (Z.lor B (not32 D)), (7 * iz) mod 16) in
  let F' := add32 (add32 (add32 F A) (nth i K 0)) (nth (Z.to_nat g) M 0) in
  (D, add32 B (rotl32 F' (nth i S 0)), B, C).

Definition compress (r : regs) (M : list Z) : regs :=
  let '(A, B, C, D) := r in
  let '(A', B', C', D') := fold_left (round M) (seq 0 64) r in
  (add32 A A', add32 B B', add32 C C', add32 D D').

Definition digest (msg : list Z) : list Z :=
  let padded := pad msg in
  let blocks := map (block_words padded) (seq 0 (length padded / 64)) in
  let '(A, B, C, D) := fold_left compress blocks init in
  le_bytes 4 A ++ le_bytes 4 B ++ le_bytes 4 C ++ le_bytes 4 D.

Definition hex_digit (d : Z) : N :=
  if d <? 10 then Z.to_N (48 + d) else Z.to_N (87 + d).

(** [.hexdigest()]: two lowercase hexadecimal digits per byte. *)
Definition hex (bytes : list Z) : pystr :=
  flat_map (fun b => [hex_digit (b / 16); hex_digit (b mod 16)]) bytes.

Definition hexdigest (msg : list Z) : pystr := hex (digest msg).

End Md5.

Definition get_hash (text : pystr) : pystr :=
  Md5.hexdigest (encode_utf8 text).

(* ================================================================== *)
(** * The standard library's [datetime] *)
(* ================================================================== *)

Module Datetime.

Record t : Type := make {
  year : Z; month : Z; day : Z;
  hour : Z; minute : Z; second : Z; microsecond : Z;
  (** the UTC offset in microseconds, [None] for a naive value *)
  utcoffset : option Z
}.

Definition digit (c : N) : option Z :=
  if ((48 <=? c) && (c <=? 57))%N then Some (Z.of_N c - 48) else None.

(** Reads exactly [n] decimal digits. *)
Fixpoint digits (n : nat) (acc : Z) (s : pystr) : option (Z * pystr) :=
  match n with
  | O => Some (acc, s)
  | S n' =>
      match s with
      | [] => None
      | c :: r =>
          match digit c with
          | Some d => digits n' (10 * acc + d) r
          | None => None
          end
      end
  end.

Definition is_leap (y : Z) : bool :=
  (y mod 4 =? 0) && (negb (y mod 100 =? 0) || (y mod 400 =? 0)).

Definition days_in_month (y m : Z) : Z :=
  if m =? 2 then (if is_leap y then 29 else 28)
  else if (m =? 4) || (m =? 6) || (m =? 9) || (m =? 11) then 30
  else 31.

Definition COLON : N := 58%N.
Definition DOT : N := 46%N.
Definition PLUS : N := 43%N.
Definition MINUS : N := 45%N.

(** [HH[:MM[:SS[.fff[fff]]]]], the whole of [s]; the fraction is returned
    in microseconds. *)
Definition parse_hh_mm_ss_ff (s : pystr) : option (Z * Z * Z * Z) :=
  match digits 2 0 s with
  | None => None
  | Some (hh, []) => Some (hh, 0, 0, 0)
  | Some (hh, c1 :: r1) =>
      if negb (c1 =? COLON)%N then None else
      match digits 2 0 r1 with
      | None => None
      | Some (mm, []) => Some (hh, mm, 0, 0)
      | Some (mm, c2 :: r2) =>
          if negb (c2 =? COLON)%N then None else
          match digits 2 0 r2 with
          | None => None
          | Some (ss, []) => Some (hh, mm, ss, 0)
          | Some (ss, c3 :: r3) =>
              if negb (c3 =? DOT)%N then None else
              match length r3 with
              | 3%nat =>
                  match digits 3 0 r3 with
                  | Some (ms, _) => Some (hh, mm, ss, 1000 * ms)
                  | None => None
                  end
              | 6%nat =>
                  match digits 6 0 r3 with
                  | Some (us, _) => Some (hh, mm, ss, us)
                  | None => None
                  end
              | _ => None
              end
          end
      end
  end.

(** Cuts a time string before its first sign character. *)
Fixpoint split_at_sign (s : pystr) : pystr * option (N * pystr) :=
  match s with
  | [] => ([], None)
  | c :: r =>
      if ((c =? PLUS) || (c =? MINUS))%N then ([], Some (c, r))
      else let '(time, tz) := split_at_sign r in (c :: time, tz)
  end.

(** The offset [HH:MM], [HH:MM:SS] or [HH:MM:SS.ffffff] after the sign, in
    microseconds; it has to lie strictly within one day. *)
Definition parse_offset (sign : N) (s : pystr) : option Z :=
  match length s with
  | 5%nat | 8%nat | 15%nat =>
      match parse_hh_mm_ss_ff s with
      | Some (hh, mm, ss, us) =>
          let off := ((hh * 60 + mm) * 60 + ss) * 1000000 + us in
          if off <? 86400000000
          then Some (if (sign =? MINUS)%N then - off else off)
          else None
      | None => None
      end
  | _ => None
  end.

(** [datetime.fromisoformat(s)], after the format the library documents
    for it, [YYYY-MM-DD[*HH[:MM[:SS[.fff[fff]]]][+HH:MM[:SS[.ffffff]]]]]
    where [*] is any one character; [None] stands for [ValueError]. *)
Definition fromisoformat (s : pystr) : option t :=
  match digits 4 0 s with
  | None => None
  | Some (y, []) => None
  | Some (y, d1 :: s1) =>
  if negb (d1 =? MINUS)%N then None else
  match digits 2 0 s1 with
  | None => None
  | Some (m, []) => None
  | Some (m, d2 :: s2) =>
  if negb (d2 =? MINUS)%N then None else
  match digits 2 0 s2 with
  | None => None
  | Some (d, rest) =>
  if negb ((1 <=? y) && (1 <=? m) && (m <=? 12)
           && (1 <=? d) && (d <=? days_in_month y m)) then None else
  match rest with
  | [] => Some (make y m d 0 0 0 0 None)
  | _ :: tstr =>
      let '(time, tz) := split_at_sign tstr in
      match parse_hh_mm_ss_ff time with
      | None => None
      | Some (hh, mm, ss, us) =>
          if negb ((hh <? 24) && (mm <? 60) && (ss <? 60)) then None else
          match tz with
          | None => Some (make y m d hh mm ss us None)
          | Some (sign, off) =>
              match parse_offset sign off with
              | Some o => Some (make y m d hh mm ss us (Some o))
              | None => None
              end
          end
      end
  end end end end.

(** A non-negative number on at least [width] digits, zero-filled. *)
Definition zfill (width : nat) (n : Z) : pystr :=
  let ds := str_of_Z n in
  repeat 48%N (width - length ds) ++ ds.

Definition HYPHEN : pystr := [MINUS].

(** [dt.strftime("%Y-%m-%d %H:%M")], the year on four digits as the
    library documents [%Y]. *)
Definition strftime_minutes (dt : t) : pystr :=
  zfill 4 (year dt) ++ HYPHEN ++ zfill 2 (month dt) ++ HYPHEN
    ++ zfill 2 (day dt) ++ [SPACE]
    ++ zfill 2 (hour dt) ++ [COLON] ++ zfill 2 (minute dt).

(** [dt.strftime("%Y-%m-%d %H:%M:%S")] *)
Definition strftime_seconds (dt : t) : pystr :=
  strftime_minutes dt ++ [COLON] ++ zfill 2 (second dt).

End Datetime.

(* ================================================================== *)
(** * The document tree of BeautifulSoup *)
(* ================================================================== *)

(** A [dict] with string keys, as the association list of its items. *)
Definition dict : Type := list (pystr * pystr).

Fixpoint dict_get (d : dict) (key : pystr) : option pystr :=
  match d with
  | [] => None
  | (k, v) :: rest => if pystr_eqb k key then Some v else dict_get rest key
  end.

#[local] Set Warnings "-register-all".

(** A page element: a text string, a string that is not text (a comment,
    a declaration), or a tag with its attributes and children. *)
Inductive node : Type :=
| NavigableString (s : pystr)
| Comment (s : pystr)
| Tag (name : pystr) (attrs : dict) (contents : list node).

(** Every element below [n], in document order. *)
Fixpoint descendants (n : node) : list node :=
  match n with
  | Tag _ _ contents => flat_map (fun c => c :: descendants c) contents
  | _ => []
  end.

(** [tag.text]: the text strings below the tag, concatenated. *)
Fixpoint text (n : node) : pystr :=
  match n with
  | NavigableString s => s
  | Comment _ => []
  | Tag _ _ contents => flat_map text contents
  end.

Definition CLASS : pystr := str "class".

(** The classes of a tag: its [class] attribute cut at whitespace. *)
Definition classes (attrs : dict) : list pystr :=
  match dict_get attrs CLASS with
  | Some v => split v
  | None => []
  end.

(** Whether an element is a tag called [name] that, when [class_] is given,
    carries that class. *)
Definition matches (name : pystr) (class_ : option pystr) (n : node) : bool :=
  match n with
  | Tag nm attrs _ =>
      pystr_eqb nm name
      && match class_ with
         | Some c => existsb (pystr_eqb c) (classes attrs)
         | None => true
         end
  | _ => false
  end.

(** [tag.find_all(name, class_=...)] *)
Definition find_all (n : node) (name : pystr) (class_ : option pystr)
  : list node :=
  filter (matches name class_) (descendants n).

(** [tag.find(name, class_=...)]: the first match, or [None]. *)
Definition find (n : node) (name : pystr) (class_ : option pystr)
  : option node :=
  match find_all n name class_ with
  | [] => None
  | first :: _ => Some first
  end.

Definition attrs_of (n : node) : dict :=
  match n with
  | Tag _ attrs _ => attrs
  | _ => []
  end.

(** [tag.has_attr(key)] *)
Definition has_attr (n : node) (key : pystr) : bool :=
  match dict_get (attrs_of n) key with Some _ => true | None => false end.

(** [tag.get(key, default)] *)
Definition get (n : node) (key : pystr) (default : pystr) : pystr :=
  match dict_get (attrs_of n) key with Some v => v | None => default end.

(* ================================================================== *)
(** * scraper.py: data *)
(* ================================================================== *)

Definition BASE_URL : pystr := str "https://techcrunch.com".

Definition USER_AGENTS : list pystr :=
  [ str "Mozilla/5.0 (Windows NT 10.0; Win64; x64) AppleWebKit/537.36 (KHTML, like Gecko) Chrome/91.0.4472.124 Safari/537.36";
    str "Mozilla/5.0 (Macintosh; Intel Mac OS X 10_15_7) AppleWebKit/537.36 (KHTML, like Gecko) Chrome/91.0.4472.124 Safari/537.36";
    str "Mozilla/5.0 (X11; Ubuntu; Linux x86_64; rv:89.0) Gecko/20100101 Firefox/89.0";
    str "Mozilla/5.0 (iPhone; CPU iPhone OS 14_0 like Mac OS X) AppleWebKit/605.1.15 (KHTML, like Gecko) Version/14.0 Mobile/15E148 Safari/604.1";
    str "Mozilla/5.0 (iPad; CPU OS 14_0 like Mac OS X) AppleWebKit/605.1.15 (KHTML, like Gecko) Version/14.0 Mobile/15E148 Safari/604.1" ].

Record Article : Type := mkArticle {
  source : pystr;
  title : pystr;
  url : pystr;
  author : pystr;
  publish_time : pystr;
  hash : pystr;
  category : option pystr;
  excerpt : option pystr;
  scraped_at : pystr
}.

Definition UNKNOWN : pystr := str "Unknown".

(* ================================================================== *)
(** * The outside world and the scraper's state *)
(* ================================================================== *)

(** How a call ends: it returns a value, or it raises an exception of
    class [Exception], kept as its message [str(e)].  What is not an
    [Exception] (an interrupt, a cancellation) ends the process and is not
    part of a run. *)
Inductive outcome (A : Type) : Type :=
| Ret (a : A)
| Raise (msg : pystr).
Arguments Ret {A} a.
Arguments Raise {A} msg.

(** What one GET brings back: an exception out of the transport, or a
    response with its status and with what [await response.text()] gives,
    the body or an exception. *)
Inductive reply : Type :=
| TransportError (msg : pystr)
| Response (status : Z) (body : outcome pystr).

(** The answers of the environment.  Each interaction of a run with the
    outside (a random draw, a request, a reading of the clock) takes the
    answer at the run's current step. *)
Record world : Type := mkWorld {
  random_index : nat -> nat;
  http : nat -> pystr -> dict -> reply;
  wall_clock : nat -> Datetime.t;
  (** [BeautifulSoup(html, 'html.parser')] *)
  html_parser : pystr -> node
}.

Inductive event : Type :=
| Request (url : pystr) (headers : dict)
| Sleep
| Print (line : pystr).

(** The [TechCrunchScraper] object ([max_pages], whether [session] is set,
    [errors]) together with what the run has done so far.  The bounds of
    [delay_range] are floats and only decide how long a [Sleep] lasts. *)
Record state : Type := mkState {
  max_pages : Z;
  session : bool;
  errors : list pystr;
  trace : list event;
  steps : nat
}.

(** The URLs requested along a trace, in order. *)
Definition requested (tr : list event) : list pystr :=
  flat_map (fun e => match e with Request u _ => [u] | _ => [] end) tr.

(** ** Computations: state passing, with exceptions *)

Definition M (A : Type) : Type := state -> outcome A * state.

Definition ret {A} (a : A) : M A := fun st => (Ret a, st).

Definition bind {A B} (c : M A) (k : A -> M B) : M B :=
  fun st =>
    match c st with
    | (Ret a, st') => k a st'
    | (Raise e, st') => (Raise e, st')
    end.

Definition raise {A} (msg : pystr) : M A := fun st => (Raise msg, st).

(** [try: body except Exception as e: handler(str(e))] *)
Definition try_except {A} (body : M A) (handler : pystr -> M A) : M A :=
  fun st =>
    match body st with
    | (Ret a, st') => (Ret a, st')
    | (Raise e, st') => handler e st'
    end.

Notation "x <- c ;; k" := (bind c (fun x => k))
  (at level 61, c at next level, right associativity).
Notation "c ;; k" := (bind c (fun _ => k))
  (at level 61, right associativity).

Definition tick (st : state) : state :=
  mkState (max_pages st) (session st) (errors st) (trace st) (S (steps st)).

Definition emit (e : event) : M unit :=
  fun st =>
    (Ret tt,
     mkState (max_pages st) (session st) (errors st) (trace st ++ [e])
             (steps st)).

Definition print (line : pystr) : M unit := emit (Print line).

(** [self.errors.append(msg)] *)
Definition errors_append (msg : pystr) : M unit :=
  fun st =>
    (Ret tt,
     mkState (max_pages st) (session st) (errors st ++ [msg]) (trace st)
             (steps st)).

Definition self_max_pages : M Z := fun st => (Ret (max_pages st), st).

Inductive ctl : Type := Continue | Break.

(** [for x in xs: body], with the variables the body assigns threaded as
    [s]; the result tells whether the loop ran to its end or left through
    [break]. *)
Fixpoint for_in {A V} (xs : list A) (body : A -> V -> M (ctl * V)) (s : V)
  : M (ctl * V) :=
  match xs with
  | [] => ret (Continue, s)
  | x :: rest =>
      r <- body x s ;;
      match r with
      | (Continue, s') => for_in rest body s'
      | (Break, s') => ret (Break, s')
      end
  end.

(** [range(lo, hi)] *)
Definition range (lo hi : Z) : list Z :=
  map (fun i => lo + Z.of_nat i) (seq 0 (Z.to_nat (hi - lo))).

(* ================================================================== *)
(** * scraper.py: the scraper *)
(* ================================================================== *)

Section Scraper.

Variable W : world.

(** [random.choice(seq)] *)
Definition random_choice (l : list pystr) : M pystr :=
  match l with
  | [] => raise (str "Cannot choose from an empty sequence")
  | _ :: _ =>
      fun st =>
        (Ret (nth (random_index W (steps st) mod length l)%nat l []),
         tick st)
  end.

(** [datetime.now()] *)
Definition datetime_now : M Datetime.t :=
  fun st => (Ret (wall_clock W (steps st)), tick st).

(** [Article(...)], with [__post_init__] filling [scraped_at]. *)
Definition Article_new (source title url author publish_time hash : pystr)
    (category excerpt : option pystr) (scraped_at : option pystr)
  : M Article :=
  match scraped_at with
  | Some at_ =>
      ret (mkArticle source title url author publish_time hash
                     category excerpt at_)
  | None =>
      now <- datetime_now ;;
      ret (mkArticle source title url author publish_time hash
                     category excerpt (Datetime.strftime_seconds now))
  end.

Definition get_headers : M dict :=
  user_agent <- random_choice USER_AGENTS ;;
  ret [ (str "User-Agent", user_agent);
        (str "Accept", str "text/html,application/xhtml+xml,application/xml;q=0.9,image/webp,*/*;q=0.8");
        (str "Accept-Language", str "en-US,en;q=0.5");
        (str "Accept-Encoding", str "gzip, deflate");
        (str "Connection", str "keep-alive");
        (str "Upgrade-Insecure-Requests", str "1") ].

(** [await asyncio.sleep(delay)], [delay] drawn at random within
    [self.delay_range] *)
Definition random_delay : M unit :=
  fun st => emit Sleep (tick st).

(** [self.session.get(url, headers=headers)]: without a session the
    attribute access on [None] raises; with one the request goes out. *)
Definition session_get (url : pystr) (headers : dict)
  : M (Z * outcome pystr) :=
  fun st =>
    if session st then
      match emit (Request url headers) (tick st) with
      | (_, st') =>
          match http W (steps st) url headers with
          | TransportError msg => (Raise msg, st')
          | Response status body => (Ret (status, body), st')
          end
      end
    else (Raise (str "'NoneType' object has no attribute 'get'"), st).

(** [await response.text()] *)
Definition response_text (body : outcome pystr) : M pystr :=
  match body with
  | Ret html => ret html
  | Raise msg => raise msg
  end.

Definition fetch_page (url : pystr) : M (option node) :=
  headers <- get_headers ;;
  try_except
    (response <- session_get url headers ;;
     let '(status, body) := response in
     if status =? 200 then
       html <- response_text body ;;
       ret (Some (html_parser W html))
     else
       let error_msg :=
         str "Failed to fetch " ++ url ++ str ": HTTP " ++ str_of_Z status in
       errors_append error_msg ;;
       print (str "Error: " ++ error_msg) ;;
       ret None)
    (fun e =>
       let error_msg :=
         str "Exception while fetching " ++ url ++ str ": " ++ e in
       errors_append error_msg ;;
       print (str "Error: " ++ error_msg) ;;
       ret None).

Definition parse_article_from_card (card : node) : M (option Article) :=
  (* Extract title and URL *)
  match find card (str "a") (Some (str "loop-card__title-link")) with
  | None => ret None
  | Some title_tag =>
      let title := clean_text (text title_tag) in
      if negb (truthy title) then ret None else
      (* Extract URL *)
      let url := get title_tag (str "href") [] in
      let url :=
        if truthy url && negb (startswith url (str "http")) then
          if startswith url (str "/") then BASE_URL ++ url
          else BASE_URL ++ str "/" ++ url
        else url in
      (* Extract author *)
      let author :=
        match find card (str "a") (Some (str "loop-card__author")) with
        | Some author_tag => clean_text (text author_tag)
        | None => UNKNOWN
        end in
      (* Extract publish time *)
      let raw_time :=
        match find card (str "time") None with
        | Some time_tag =>
            if has_attr time_tag (str "datetime")
            then get time_tag (str "datetime") []
            else []
        | None => []
        end in
      let publish_time :=
        if truthy raw_time then
          match
            Datetime.fromisoformat
              (replace_char 90%N (str "+00:00") raw_time)
          with
          | Some dt_obj => Datetime.strftime_minutes dt_obj
          | None =>
              (* except ValueError *)
              if truthy raw_time then firstn 19 raw_time else UNKNOWN
          end
        else UNKNOWN in
      article <- Article_new (str "TechCrunch") title url author
                   publish_time (get_hash title) None None None ;;
      ret (Some article)
  end.

Definition page_url (page_num : Z) : pystr :=
  if page_num =? 1 then BASE_URL
  else BASE_URL ++ str "/page/" ++ str_of_Z page_num ++ str "/".

Definition CARD_CLASS : pystr := str "loop-card__content".

(** The body of [for card in cards] in [scrape_page]. *)
Definition card_step (card : node) (articles : list Article)
  : M (ctl * list Article) :=
  article <- parse_article_from_card card ;;
  match article with
  | Some a => ret (Continue, articles ++ [a])
  | None => ret (Continue, articles)
  end.

Definition scrape_page (page_num : Z) : M (list Article) :=
  let url := page_url page_num in
  print (str "Scraping page " ++ str_of_Z page_num ++ str ": " ++ url) ;;
  soup <- fetch_page url ;;
  match soup with
  | None => ret []
  | Some soup =>
      (* Find article cards on the page *)
      let cards := find_all soup (str "div") (Some CARD_CLASS) in
      r <- for_in cards card_step [] ;;
      let articles := snd r in
      print (str "Found " ++ str_of_nat (length articles)
               ++ str " articles on page " ++ str_of_Z page_num) ;;
      ret articles
  end.

(** The body of [for page_num in range(1, self.max_pages + 1)]. *)
Definition page_step (page_num : Z) (all_articles : list Article)
  : M (ctl * list Article) :=
  articles <- scrape_page page_num ;;
  let all_articles := all_articles ++ articles in
  (* If no articles found, likely reached the end *)
  match articles with
  | [] =>
      print (str "No articles found on page " ++ str_of_Z page_num
               ++ str ", stopping.") ;;
      ret (Break, all_articles)
  | _ :: _ =>
      (* Add delay between pages (except for the last page) *)
      limit <- self_max_pages ;;
      (if page_num <? limit then random_delay else ret tt) ;;
      ret (Continue, all_articles)
  end.

Definition scrape_all_pages : M (list Article) :=
  limit <- self_max_pages ;;
  r <- for_in (range 1 (limit + 1)) page_step [] ;;
  ret (snd r).

End Scraper.

(* ================================================================== *)
(** * Sample documents and worlds *)
(* ================================================================== *)

Module Samples.

Definition TITLE_LINK : pystr := str "loop-card__title-link".
Definition AUTHOR_LINK : pystr := str "loop-card__author".

Definition title_link (attrs : dict) (label : string) : node :=
  Tag (str "a") ((CLASS, str "loop-card__title-link") :: attrs)
      [NavigableString (str label)].

Definition author_link (name : string) : node :=
  Tag (str "a") [(CLASS, str "loop-card__author")]
      [NavigableString (str name)].

Definition time_tag (attrs : dict) : node := Tag (str "time") attrs [].

Definition card (children : list node) : node :=
  Tag (str "div") [(CLASS, str "loop-card loop-card__content")] children.

(** A complete card. *)
Definition card_full : node :=
  card [ title_link [(str "href", str "/2024/01/01/foo")] "  Hello   World ";
         author_link "Jane Doe";
         time_tag [(str "datetime", str "2024-01-15T10:30:00Z")] ].

(** A card whose link is relative without a leading slash and whose
    timestamp is not an ISO date. *)
Definition card_bare : node :=
  card [ title_link [(str "href", str "2024/01/01/bar")] "Second";
         time_tag [(str "datetime", str "not-a-date-xxxxxxxxxx")] ].

(** A card with an absolute link and nothing else. *)
Definition card_absolute : node :=
  card [ title_link [(str "href", str "https://example.org/x")] "Third" ].

(** A card whose title link has no [href]. *)
Definition card_no_href : node :=
  card [ title_link [] "No link"; author_link "Jane Doe" ].

(** A card whose author element holds only whitespace. *)
Definition card_blank_author : node :=
  card [ title_link [(str "href", str "/a")] "Blank"; author_link "  " ].


(** Cards that yield nothing: no title link, and a blank title. *)
Definition card_no_title : node := card [ author_link "Jane Doe" ].
Definition card_blank_title : node :=
  card [ title_link [(str "href", str "/b")] "   " ].

Definition document (children : list node) : node :=
  Tag (str "[document]") [] [Tag (str "html") [] children].

Definition page_one : node :=
  document [card_full; card_no_title; card_bare; card_absolute].
Definition page_empty : node :=
  document [Tag (str "p") [] [NavigableString (str "nothing here")]].

(** A parser that knows two bodies. *)
Definition parser (html : pystr) : node :=
  if pystr_eqb html (str "<one>") then page_one else page_empty.

Definition clock (n : nat) : Datetime.t :=
  Datetime.make 2024 1 15 12 0 (Z.of_nat n mod 60) 0 None.

(** The first page has three valid cards; every other page is served
    but has none. *)
Definition site : world :=
  mkWorld (fun n => n)
          (fun _ url _ =>
             if pystr_eqb url BASE_URL then Response 200 (Ret (str "<one>"))
             else Response 200 (Ret (str "<none>")))
          clock parser.

(** Every page is the first page. *)
Definition endless : world :=
  mkWorld (fun n => n)
          (fun _ _ _ => Response 200 (Ret (str "<one>")))
          clock parser.

(** The server answers 503 to everything. *)
Definition unavailable : world :=
  mkWorld (fun n => n)
          (fun _ _ _ => Response 503 (Ret (str "<none>")))
          clock parser.

(** The connection fails. *)
Definition offline : world :=
  mkWorld (fun n => n)
          (fun _ _ _ => TransportError (str "Cannot connect to host"))
          clock parser.

(** A scraper in the middle of some later run. *)
Definition later : state :=
  mkState 3 true [str "an earlier error"] [Sleep] 7.

(** A scraper inside its [async with] block, before anything ran. *)
Definition fresh (pages : Z) : state := mkState pages true [] [] 0.

(** The first turn of the loop on [site], for a scraper allowed five
    pages: the articles gathered on page 1 and the state reached. *)
Definition first_turn : outcome (ctl * list Article) * state :=
  for_in (range 1 2) (page_step site) [] (fresh 5).

Definition gathered : list Article :=
  match fst first_turn with
  | Ret (_, articles) => articles
  | Raise _ => []
  end.

Definition after_first : state := snd first_turn.

End Samples.

(* ================================================================== *)
(** * Vocabulary of the statements *)
(* ================================================================== *)

(** A word: a non-empty run of characters none of which is whitespace. *)
Definition spaceless (w : pystr) : Prop :=
  Forall (fun c => isspace c = false) w.
Definition word (w : pystr) : Prop := w <> [] /\ spaceless w.

(** No whitespace at the head. *)
Definition tight (s : pystr) : Prop :=
  match s with [] => True | c :: _ => isspace c = false end.

(** [c], started in [st], returns normally with a value and a state that
    satisfy [post]. *)
Definition returns {A} (c : M A) (st : state) (post : A -> state -> Prop)
  : Prop :=
  exists a st', c st = (Ret a, st') /\ post a st'.

(** From [st] to [st'] the scraper object is the same one, the run has
    produced the events [evs] and logged the errors [errs]. *)
Record grows (st st' : state) (evs : list event) (errs : list pystr)
  : Prop := mkGrows {
  grows_max_pages : max_pages st' = max_pages st;
  grows_session : session st' = session st;
  grows_trace : trace st' = trace st ++ evs;
  grows_errors : errors st' = errors st ++ errs
}.

(** The headers [fetch_page] sends from [st], and the answer of the world
    to the request it then makes for [url]. *)
Definition headers_at (W : world) (st : state) : dict :=
  match get_headers W st with
  | (Ret headers, _) => headers
  | (Raise _, _) => []
  end.

Definition answer (W : world) (url : pystr) (st : state) : reply :=
  http W (S (steps st)) url (headers_at W st).


(** Some run of [parse_article_from_card] on [card] returns [r]. *)
Definition parses_to (W : world) (card : node) (r : option Article) : Prop :=
  exists st st', parse_article_from_card W card st = (Ret r, st').

(** The articles among the results of parsing, in order. *)
Definition emitted (rs : list (option Article)) : list Article :=
  flat_map (fun r => match r with Some a => [a] | None => [] end) rs.

(** [articles] are what the [cards] give, card by card, in the order of the
    cards, the cards that give nothing left out. *)
Definition in_card_order (W : world) (cards : list node)
    (articles : list Article) : Prop :=
  exists rs, Forall2 (parses_to W) cards rs /\ articles = emitted rs.

(** The cards of a document. *)
Definition cards_of (soup : node) : list node :=
  find_all soup (str "div") (Some CARD_CLASS).

(** [articles] is what page [page_num] yields: nothing, or, the page fetched
    as the document [html_parser W html], the articles of its cards in card
    order. *)
Definition articles_of_page (W : world) (page_num : Z)
    (articles : list Article) : Prop :=
  articles = []
  \/ exists st html st',
       fetch_page W (page_url page_num) st
         = (Ret (Some (html_parser W html)), st')
       /\ in_card_order W (cards_of (html_parser W html)) articles.

(** The line printed when the loop stops early. *)
Definition stop_message (page_num : Z) : pystr :=
  str "No articles found on page " ++ str_of_Z page_num ++ str ", stopping.".


(** The characters of a text that are not whitespace, in order. *)
Definition visible (s : pystr) : pystr :=
  filter (fun c => negb (isspace c)) s.

(** A text of whitespace only. *)
Definition blank (s : pystr) : bool := forallb isspace s.


(** How often a trace sleeps, and the lines it prints, in order. *)
Definition sleeps (tr : list event) : nat :=
  length (filter (fun e => match e with Sleep => true | _ => false end) tr).

Definition printed (tr : list event) : list pystr :=
  flat_map (fun e => match e with Print line => [line] | _ => [] end) tr.

(** The names of the headers of a request, in order. *)
Definition HEADER_NAMES : list pystr :=
  [ str "User-Agent"; str "Accept"; str "Accept-Language";
    str "Accept-Encoding"; str "Connection"; str "Upgrade-Insecure-Requests" ].

(** The headers are the six browser headers, with a user agent of the pool. *)
Definition browser_headers (headers : dict) : Prop :=
  map fst headers = HEADER_NAMES
  /\ exists user_agent,
       dict_get headers (str "User-Agent") = Some user_agent
       /\ In user_agent USER_AGENTS.

(** An event of the fetch of [url]: a print, or the request of [url] with
    browser headers; never a sleep. *)
Definition fetch_event (url : pystr) (e : event) : Prop :=
  match e with
  | Request u headers => u = url /\ browser_headers headers
  | Sleep => False
  | Print _ => True
  end.

(** An event of a run: a request has browser headers. *)
Definition run_event (e : event) : Prop :=
  match e with
  | Request _ headers => browser_headers headers
  | _ => True
  end.

(** Two articles agree on everything but the time they were scraped at. *)
Definition same_content (a b : Article) : Prop :=
  source a = source b /\ title a = title b /\ url a = url b
  /\ author a = author b /\ publish_time a = publish_time b
  /\ hash a = hash b /\ category a = category b /\ excerpt a = excerpt b.



(* ================================================================== *)
(** * scraper.py: the report *)
(* ================================================================== *)

From Stdlib Require Import Permutation.

(** [collections.Counter]: a dict from the items to the number of times
    they occur, in the order in which the items first occur. *)
Fixpoint counter_add (x : pystr) (c : list (pystr * nat))
  : list (pystr * nat) :=
  match c with
  | [] => [(x, 1%nat)]
  | (k, n) :: rest =>
      if pystr_eqb k x then (k, S n) :: rest else (k, n) :: counter_add x rest
  end.

Definition Counter (items : list pystr) : list (pystr * nat) :=
  fold_left (fun c x => counter_add x c) items [].

(** Sorting by count, highest first, items of equal count staying in their
    order: [sorted(items, key=itemgetter(1), reverse=True)]. *)
Fixpoint insert_by_count (x : pystr * nat) (l : list (pystr * nat))
  : list (pystr * nat) :=
  match l with
  | [] => [x]
  | y :: rest =>
      if (snd y <? snd x)%nat then x :: y :: rest
      else y :: insert_by_count x rest
  end.

Definition sorted_by_count (l : list (pystr * nat)) : list (pystr * nat) :=
  fold_left (fun acc x => insert_by_count x acc) l [].

(** [counter.most_common(n)] *)
Definition most_common (n : nat) (c : list (pystr * nat))
  : list (pystr * nat) :=
  firstn n (sorted_by_count c).

Definition self_errors : M (list pystr) := fun st => (Ret (errors st), st).

Definition RULE : pystr := repeat 61%N 50.
Definition NEWLINE : pystr := [10%N].

(** [[article.author for article in articles if article.author != 'Unknown']] *)
Definition known_authors (articles : list Article) : list pystr :=
  map author
      (filter (fun article => negb (pystr_eqb (author article) UNKNOWN))
              articles).

Definition top_authors (articles : list Article) : list (pystr * nat) :=
  most_common 3 (Counter (known_authors articles)).

(** A [for] loop whose body only acts. *)
Definition for_each {A} (xs : list A) (body : A -> M unit) : M unit :=
  for_in xs (fun x _ => body x ;; ret (Continue, tt)) tt ;; ret tt.

Definition generate_report (articles : list Article) : M unit :=
  print (NEWLINE ++ RULE) ;;
  print (str "SCRAPING REPORT") ;;
  print RULE ;;
  print (str "Total articles scraped: " ++ str_of_nat (length articles)) ;;
  pages <- self_max_pages ;;
  print (str "Pages attempted: " ++ str_of_Z pages) ;;
  errs <- self_errors ;;
  print (str "Errors encountered: " ++ str_of_nat (length errs)) ;;
  (match errs with
   | [] => ret tt
   | _ :: _ =>
       print (NEWLINE ++ str "Errors:") ;;
       for_each errs (fun error => print (str "  - " ++ error))
   end) ;;
  (match articles with
   | [] => ret tt
   | first :: _ =>
       print (NEWLINE ++ str "Latest article: " ++ title first) ;;
       print (str "Oldest article: " ++ title (last articles first)) ;;
       (* Author statistics *)
       match known_authors articles with
       | [] => ret tt
       | _ :: _ =>
           print (NEWLINE ++ str "Top authors:") ;;
           for_each (top_authors articles)
             (fun '(author, count) =>
                print (str "  - " ++ author ++ str ": " ++ str_of_nat count
                         ++ str " articles"))
       end
   end) ;;
  print RULE.

(** How often [x] occurs in [l]. *)
Definition occurrences (x : pystr) (l : list pystr) : nat :=
  length (filter (pystr_eqb x) l).

(** The count a [Counter] holds for [x], if any. *)
Fixpoint counter_get (c : list (pystr * nat)) (x : pystr) : option nat :=
  match c with
  | [] => None
  | (k, n) :: rest => if pystr_eqb k x then Some n else counter_get rest x
  end.

(** Counts that do not increase along the list. *)
Definition by_falling_count (l : list (pystr * nat)) : Prop :=
  ForallOrdPairs (fun x y => (snd y <= snd x)%nat) l.

(** The number of articles written by [name]. *)
Definition articles_by (name : pystr) (articles : list Article) : nat :=
  length (filter (fun article => pystr_eqb (author article) name) articles).

(** What a [Counter] holds after the items [seen]. *)
Definition counts (c : list (pystr * nat)) (seen : list pystr) : Prop :=
  NoDup (map fst c)
  /\ forall a, counter_get c a
               = match occurrences a seen with
                 | O => None
                 | S n => Some (S n)
                 end.

(** From [st] to [st'] nothing happened but the printing of [lines]. *)
Definition only_printed (st st' : state) (lines : list pystr) : Prop :=
  max_pages st' = max_pages st /\ session st' = session st
  /\ errors st' = errors st /\ steps st' = steps st
  /\ trace st' = trace st ++ map Print lines.

(** The line of the report for one author. *)
Definition author_line (entry : pystr * nat) : pystr :=
  str "  - " ++ fst entry ++ str ": " ++ str_of_nat (snd entry)
    ++ str " articles".

(** The lines of the report on [articles], for a scraper with this limit
    of pages and these errors. *)
Definition report_lines (articles : list Article) (limit : Z)
    (errs : list pystr) : list pystr :=
  [ NEWLINE ++ RULE; str "SCRAPING REPORT"; RULE;
    str "Total articles scraped: " ++ str_of_nat (length articles);
    str "Pages attempted: " ++ str_of_Z limit;
    str "Errors encountered: " ++ str_of_nat (length errs) ]
  ++ match errs with
     | [] => []
     | _ :: _ =>
         (NEWLINE ++ str "Errors:")
           :: map (fun error => str "  - " ++ error) errs
     end
  ++ match articles with
     | [] => []
     | first :: _ =>
         [ NEWLINE ++ str "Latest article: " ++ title first;
           str "Oldest article: " ++ title (last articles first) ]
         ++ match known_authors articles with
            | [] => []
            | _ :: _ =>
                (NEWLINE ++ str "Top authors:")
                  :: map author_line (top_authors articles)
            end
     end
  ++ [RULE].

(** Articles for the examples of the report. *)
Definition article_by (name headline : string) : Article :=
  mkArticle (str "TechCrunch") (str headline)
            (str "https://techcrunch.com/2024/01/01/x") (str name) UNKNOWN
            (get_hash (str headline)) None None (str "2024-01-15 12:00:00").

Definition newsroom : list Article :=
  [ article_by "Ann" "one"; article_by "Bob" "two";
    article_by "Unknown" "three"; article_by "Bob" "four";
    article_by "Cy" "five"; article_by "Ann" "six";
    article_by "Dee" "seven"; article_by "Bob" "eight";
    article_by "Unknown" "nine" ].

(* ================================================================== *)
(** * scraper.py: saving and the command line *)
(* ================================================================== *)

Module Cli.

(** One record of the table: the dict built for an article, key by key,
    [None] standing for Python's [None]. *)
Definition row : Type := list (pystr * option pystr).

Definition article_row (article : Article) : row :=
  [ (str "source", Some (source article));
    (str "title", Some (title article));
    (str "url", Some (url article));
    (str "author", Some (author article));
    (str "publish_time", Some (publish_time article));
    (str "hash", Some (hash article));
    (str "category", category article);
    (str "excerpt", excerpt article);
    (str "scraped_at", Some (scraped_at article)) ].

(** The file system, for what [pd.DataFrame(data).to_csv(path, ...)] does
    with it: the file is written, or an exception is raised (the directory
    [output] may be missing, the disk full). *)
Record disk : Type := mkDisk {
  to_csv : pystr -> list row -> outcome unit
}.

(** The process: the scraper with its run, and the tables written so far,
    each with its path. *)
Record process : Type := mkProcess {
  scraper : state;
  files : list (pystr * list row)
}.

Definition P (A : Type) : Type := process -> outcome A * process.

Definition pret {A} (a : A) : P A := fun p => (Ret a, p).

Definition pbind {A B} (c : P A) (k : A -> P B) : P B :=
  fun p =>
    match c p with
    | (Ret a, p') => k a p'
    | (Raise e, p') => (Raise e, p')
    end.

(** A computation of the scraper, within the process. *)
Definition lift {A} (c : M A) : P A :=
  fun p =>
    match c (scraper p) with
    | (r, st') => (r, mkProcess st' (files p))
    end.

Definition ptry_except {A} (body : P A) (handler : pystr -> P A) : P A :=
  fun p =>
    match body p with
    | (Ret a, p') => (Ret a, p')
    | (Raise e, p') => handler e p'
    end.

Declare Scope process_scope.
Delimit Scope process_scope with process.
Notation "x <- c ;; k" := (pbind c (fun x => k))
  (at level 61, c at next level, right associativity) : process_scope.
Notation "c ;; k" := (pbind c (fun _ => k))
  (at level 61, right associativity) : process_scope.

(** [TechCrunchScraper(max_pages=..., delay_range=...)]: a new scraper,
    without session and without errors. *)
Definition TechCrunchScraper_new (pages : Z) : M unit :=
  fun st => (Ret tt, mkState pages false [] (trace st) (steps st)).

(** [__aenter__]: the session is created. *)
Definition aenter : M unit :=
  fun st =>
    (Ret tt,
     mkState (max_pages st) true (errors st) (trace st) (steps st)).

(** [__aexit__]: the session, when there is one, is closed; the scraper
    keeps it, and the exception in flight, if any, goes on. *)
Definition aexit : M unit := ret tt.

(** [async with scraper: body] *)
Definition async_with {A} (body : P A) : P A :=
  (lift aenter ;;
   fun p =>
     match body p with
     | (Ret a, p') => (lift aexit ;; pret a)%process p'
     | (Raise e, p') => (lift aexit ;; fun q => (Raise e, q))%process p'
     end)%process.

Section CommandLine.

Variable W : world.
Variable D : disk.

(** [df.to_csv(path, index=False, encoding='utf-8')] *)
Definition write_csv (path : pystr) (data : list row) : P unit :=
  fun p =>
    match to_csv D path data with
    | Ret _ => (Ret tt, mkProcess (scraper p) (files p ++ [(path, data)]))
    | Raise msg => (Raise msg, p)
    end.

Definition save_articles_to_csv (articles : list Article) (filename : pystr)
  : P unit :=
  match articles with
  | [] => lift (print (str "No articles to save."))
  | _ :: _ =>
      (* Convert articles to dictionary format for pandas *)
      let data :=
        fold_left (fun data article => data ++ [article_row article])
                  articles [] in
      (write_csv (str "output/" ++ filename) data ;;
       lift (print (str "Saved " ++ str_of_nat (length articles)
                      ++ str " articles to " ++ filename)))%process
  end.

(** The floats of the command line: whether one is below zero, whether
    one is below another, and how one prints. *)
Variable float : Type.
Variable float_negative : float -> bool.
Variable float_lt : float -> float -> bool.
Variable float_str : float -> pystr.

(** The parsed arguments. *)
Record Args : Type := mkArgs {
  pages : Z;
  output : pystr;
  log_level : pystr;
  log_file : option pystr;
  delay_min : float;
  delay_max : float;
  no_report : bool
}.

Definition main (args : Args) : P unit :=
  (* Validate arguments *)
  if pages args <=? 0 then
    lift (print (str "Error: Number of pages must be greater than 0"))
  else if float_negative (delay_min args)
          || float_lt (delay_max args) (delay_min args) then
    lift (print (str "Error: Invalid delay parameters"))
  else
    (lift (print (str "Starting TechCrunch scraper...")) ;;
     lift (print (str "Pages to scrape: " ++ str_of_Z (pages args))) ;;
     lift (print (str "Delay range: " ++ float_str (delay_min args)
                    ++ str "-" ++ float_str (delay_max args)
                    ++ str " seconds")) ;;
     lift (print (str "Output file: " ++ output args)) ;;
     ptry_except
       (lift (TechCrunchScraper_new (pages args)) ;;
        async_with
          (articles <- lift (scrape_all_pages W) ;;
           match articles with
           | _ :: _ =>
               save_articles_to_csv articles (output args) ;;
               if negb (no_report args)
               then lift (generate_report articles)
               else pret tt
           | [] => lift (print (str "No articles were scraped successfully."))
           end))
       (fun e => lift (print (str "Scraping failed with error: " ++ e))))%process.

End CommandLine.

Arguments mkArgs {float} _ _ _ _ _ _ _.
Arguments pages {float} _.
Arguments output {float} _.
Arguments log_level {float} _.
Arguments log_file {float} _.
Arguments delay_min {float} _.
Arguments delay_max {float} _.
Arguments no_report {float} _.

(** ** Vocabulary and samples for the command line *)

Section CommandLineFacts.

Variable float : Type.
Variable float_negative : float -> bool.
Variable float_lt : float -> float -> bool.
Variable float_str : float -> pystr.

(** Whether [main] accepts the arguments. *)
Definition valid (args : Args float) : bool :=
  negb (pages args <=? 0)
  && negb (float_negative (delay_min args)
           || float_lt (delay_max args) (delay_min args)).

(** The four lines [main] prints before it scrapes. *)
Definition banner (args : Args float) : list pystr :=
  [ str "Starting TechCrunch scraper...";
    str "Pages to scrape: " ++ str_of_Z (pages args);
    str "Delay range: " ++ float_str (delay_min args) ++ str "-"
      ++ float_str (delay_max args) ++ str " seconds";
    str "Output file: " ++ output args ].

(** The scraper [main] creates and enters, after the banner: the state in
    which the scraping starts. *)
Definition started (args : Args float) (st : state) : state :=
  snd ((print (str "Starting TechCrunch scraper...") ;;
        print (str "Pages to scrape: " ++ str_of_Z (pages args)) ;;
        print (str "Delay range: " ++ float_str (delay_min args) ++ str "-"
                 ++ float_str (delay_max args) ++ str " seconds") ;;
        print (str "Output file: " ++ output args) ;;
        TechCrunchScraper_new (pages args) ;;
        aenter) st).

(** What [main] prints once the scraping is over, and the table it writes,
    if any. *)
Definition closing (D : disk) (args : Args float) (articles : list Article)
    (st_end : state) : list pystr :=
  match articles with
  | [] => [str "No articles were scraped successfully."]
  | _ :: _ =>
      match to_csv D (str "output/" ++ output args)
                   (map article_row articles) with
      | Raise msg => [str "Scraping failed with error: " ++ msg]
      | Ret _ =>
          (str "Saved " ++ str_of_nat (length articles)
             ++ str " articles to " ++ output args)
            :: (if no_report args then []
                else report_lines articles (max_pages st_end)
                                  (errors st_end))
      end
  end.

Definition written (D : disk) (args : Args float) (articles : list Article)
  : list (pystr * list row) :=
  match articles, to_csv D (str "output/" ++ output args)
                         (map article_row articles) with
  | _ :: _, Ret _ =>
      [(str "output/" ++ output args, map article_row articles)]
  | _, _ => []
  end.

End CommandLineFacts.

(** Floats that are integers, for the examples. *)
Definition int_str (z : Z) : pystr := str_of_Z z ++ str ".0".

Definition int_args (pages : Z) (delay_min delay_max : Z) (quiet : bool)
  : Args Z :=
  mkArgs pages (str "techcrunch_articles.csv") (str "INFO") None
         delay_min delay_max quiet.

Definition writable : disk := mkDisk (fun _ _ => Ret tt).

Definition no_directory : disk :=
  mkDisk (fun _ _ => Raise (str "Cannot save file into a non-existent directory: 'output'")).

(** A process that has done nothing yet. *)
Definition boot : process := mkProcess (mkState 0 false [] [] 0) [].

(** The run of [main] on the sample site, asked for five pages: the articles
    scraped, and the state once the scraping is over. *)
Definition site_run (quiet : bool) : outcome (list Article) * state :=
  scrape_all_pages Samples.site
    (started Z int_str (int_args 5 1 3 quiet) (scraper boot)).

Definition site_articles (quiet : bool) : list Article :=
  match fst (site_run quiet) with
  | Ret articles => articles
  | Raise _ => []
  end.

Definition site_end (quiet : bool) : state := snd (site_run quiet).

End Cli.

(* ================================================================== *)
(** * The library models on known values *)
(* ================================================================== *)

Example md5_of_empty :
  get_hash (str "") = str "d41d8cd98f00b204e9800998ecf8427e".
Proof. vm_compute. reflexivity. Qed.

Example md5_of_abc :
  get_hash (str "abc") = str "900150983cd24fb0d6963f7d28e17f72".
Proof. vm_compute. reflexivity. Qed.

(** One block and a half: 64 times the letter a. *)
Example md5_of_two_blocks :
  get_hash (repeat 97%N 64) = str "014842d480b571495a4a0363793f7367".
Proof. vm_compute. reflexivity. Qed.

(** A text outside ASCII: "cafe" with an acute accent, two CJK characters
    and one character beyond the basic plane. *)
Example md5_of_utf8 :
  get_hash [99; 97; 102; 233; 32; 20013; 25991; 32; 128512]%N
  = str "2c730b303ba607abd52b54ea2880d785".
Proof. vm_compute. reflexivity. Qed.

Example fromisoformat_with_offset :
  option_map Datetime.strftime_seconds
    (Datetime.fromisoformat (str "2024-02-29 23:59:59.123-05:30"))
  = Some (str "2024-02-29 23:59:59").
Proof. vm_compute. reflexivity. Qed.

Example fromisoformat_rejects :
  map Datetime.fromisoformat
      [str "2023-02-29"; str "2024-01-15T10:30Z"; str "2024-01-15T25:00";
       str "2024-01-15T10:30:00+24:00"; str "15/01/2024"]
  = [None; None; None; None; None].
Proof. vm_compute. reflexivity. Qed.

Example page_url_of_two : page_url 2 = str "https://techcrunch.com/page/2/".
Proof. vm_compute. reflexivity. Qed.


(* ================================================================== *)
(** * Properties of [clean_text] *)
(* ================================================================== *)

Lemma space_isspace : isspace SPACE = true.
Proof. reflexivity. Qed.

Lemma split_from_space cur r :
  split_from cur (SPACE :: r)
  = match cur with
    | [] => split_from [] r
    | _ :: _ => rev cur :: split_from [] r
    end.
Proof. reflexivity. Qed.

Lemma spaceless_rev w : spaceless w -> spaceless (rev w).
Proof. unfold spaceless. apply Forall_rev. Qed.

Lemma split_from_words : forall s cur,
  spaceless cur -> Forall word (split_from cur s).
Proof.
  induction s as [|c r IH]; intros cur Hcur; simpl.
  - destruct cur as [|x cur']; constructor; [|constructor].
    split.
    + intro E. apply (f_equal (@length _)) in E.
      rewrite length_rev in E. discriminate.
    + now apply spaceless_rev.
  - destruct (isspace c) eqn:Hc.
    + destruct cur as [|x cur'].
      * apply IH. constructor.
      * constructor; [|apply IH; constructor].
        split.
        -- intro E. apply (f_equal (@length _)) in E.
           rewrite length_rev in E. discriminate.
        -- now apply spaceless_rev.
    + apply IH. constructor; assumption.
Qed.

Lemma split_words s : Forall word (split s).
Proof. apply split_from_words. constructor. Qed.

Lemma split_from_spaceless : forall w cur s,
  spaceless w -> split_from cur (w ++ s) = split_from (rev w ++ cur) s.
Proof.
  induction w as [|c w IH]; intros cur s Hw; simpl.
  - reflexivity.
  - inversion Hw as [|? ? Hc Hw']; subst.
    rewrite Hc, IH by assumption.
    now rewrite <- app_assoc.
Qed.

Lemma split_word w : word w -> split w = [w].
Proof.
  intros [Hne Hw]. unfold split.
  rewrite <- (app_nil_r w) at 1.
  rewrite split_from_spaceless by assumption.
  rewrite app_nil_r. simpl.
  destruct (rev w) as [|x l] eqn:E.
  - apply (f_equal (@rev _)) in E. rewrite rev_involutive in E. contradiction.
  - now rewrite <- E, rev_involutive.
Qed.

(** Splitting what [join] glued gives the words back. *)
Lemma split_join ws : Forall word ws -> split (join [SPACE] ws) = ws.
Proof.
  induction ws as [|w rest IH]; intros Hws.
  - reflexivity.
  - inversion Hws as [|? ? Hw Hrest]; subst.
    destruct rest as [|w' rest'].
    + simpl. now apply split_word.
    + change (join [SPACE] (w :: w' :: rest'))
        with (w ++ SPACE :: join [SPACE] (w' :: rest')).
      unfold split. destruct Hw as [Hne Hw].
      rewrite split_from_spaceless by assumption.
      rewrite app_nil_r, split_from_space.
      destruct (rev w) as [|x l] eqn:E.
      * apply (f_equal (@rev _)) in E. rewrite rev_involutive in E.
        contradiction.
      * rewrite <- E, rev_involutive.
        apply (f_equal (cons w)). exact (IH Hrest).
Qed.

Lemma lstrip_tight s : tight s -> lstrip s = s.
Proof. destruct s as [|c r]; simpl; intros H; [reflexivity | now rewrite H]. Qed.

Lemma word_tight w : word w -> tight w /\ tight (rev w).
Proof.
  intros [Hne Hw]. split.
  - destruct w; [exact I | now inversion Hw].
  - apply spaceless_rev in Hw. destruct (rev w); [exact I | now inversion Hw].
Qed.

Lemma join_nonempty ws : Forall word ws -> ws <> [] -> join [SPACE] ws <> [].
Proof.
  destruct ws as [|w rest]; intros Hws Hne; [contradiction|].
  inversion Hws as [|? ? [Hw _] _]; subst.
  destruct rest; simpl; [assumption|].
  destruct w; [contradiction | discriminate].
Qed.

Lemma join_tight ws : Forall word ws -> tight (join [SPACE] ws).
Proof.
  destruct ws as [|w rest]; intros Hws; [exact I|].
  inversion Hws as [|? ? Hw _]; subst.
  destruct (word_tight w Hw) as [Ht _], Hw as [Hne _].
  destruct rest; simpl; [assumption|].
  destruct w; [contradiction | exact Ht].
Qed.

Lemma tight_rev_app a b : b <> [] -> tight (rev b) -> tight (rev (a ++ b)).
Proof.
  intros Hne Hb. rewrite rev_app_distr.
  destruct (rev b) as [|x l] eqn:E; [|exact Hb].
  apply (f_equal (@rev _)) in E. rewrite rev_involutive in E. contradiction.
Qed.

Lemma join_tight_rev ws : Forall word ws -> tight (rev (join [SPACE] ws)).
Proof.
  induction ws as [|w rest IH]; intros Hws; [exact I|].
  inversion Hws as [|? ? Hw Hrest]; subst.
  destruct rest as [|w' rest'].
  - simpl. now apply word_tight.
  - change (join [SPACE] (w :: w' :: rest'))
      with (w ++ [SPACE] ++ join [SPACE] (w' :: rest')).
    rewrite app_assoc. apply tight_rev_app.
    + apply join_nonempty; [assumption | discriminate].
    + now apply IH.
Qed.

Lemma strip_join ws : Forall word ws -> strip (join [SPACE] ws) = join [SPACE] ws.
Proof.
  intros Hws. unfold strip, rstrip.
  rewrite (lstrip_tight (join [SPACE] ws)) by now apply join_tight.
  rewrite lstrip_tight by now apply join_tight_rev.
  apply rev_involutive.
Qed.

(** Two spaces never follow each other in joined words. *)
Lemma spaceless_then_space : forall w j a b,
  spaceless w -> tight j ->
  (forall a' b', j <> a' ++ SPACE :: SPACE :: b') ->
  w ++ SPACE :: j <> a ++ SPACE :: SPACE :: b.
Proof.
  induction w as [|c w IH]; intros j a b Hw Hj Hno E; simpl in E.
  - destruct a as [|x a']; simpl in E.
    + injection E as E. subst j. simpl in Hj.
      rewrite space_isspace in Hj. discriminate.
    + injection E as _ E. now apply (Hno a' b).
  - inversion Hw as [|? ? Hc Hw']; subst.
    destruct a as [|x a']; simpl in E.
    + injection E as E _. subst c. rewrite space_isspace in Hc. discriminate.
    + injection E as _ E. now apply (IH j a' b).
Qed.

Lemma spaceless_no_space : forall w a b, spaceless w -> w <> a ++ SPACE :: b.
Proof.
  intros w a b Hw E. subst w. unfold spaceless in Hw.
  rewrite Forall_forall in Hw.
  assert (H : isspace SPACE = false)
    by (apply Hw, in_or_app; right; left; reflexivity).
  rewrite space_isspace in H. discriminate.
Qed.

Lemma join_single_spaced ws : Forall word ws ->
  forall a b, join [SPACE] ws <> a ++ SPACE :: SPACE :: b.
Proof.
  induction ws as [|w rest IH]; intros Hws a b.
  - simpl. destruct a; discriminate.
  - inversion Hws as [|? ? Hw Hrest]; subst.
    destruct rest as [|w' rest'].
    + simpl. apply spaceless_no_space, Hw.
    + change (join [SPACE] (w :: w' :: rest'))
        with (w ++ SPACE :: join [SPACE] (w' :: rest')).
      apply spaceless_then_space.
      * apply Hw.
      * now apply join_tight.
      * now apply IH.
Qed.

(** [clean_text] joins the words of its argument, empty or not. *)
Lemma clean_text_join s : clean_text s = join [SPACE] (split (strip s)).
Proof. destruct s; reflexivity. Qed.

(** C10: [clean_text] is idempotent: cleaning a cleaned text changes
    nothing; and a cleaned text neither starts nor ends with a whitespace
    character nor holds two space characters in a row. *)
Theorem clean_text_idempotent : forall s : pystr,
  clean_text (clean_text s) = clean_text s
  /\ (forall c r, clean_text s = c :: r -> isspace c = false)
  /\ (forall r c, clean_text s = r ++ [c] -> isspace c = false)
  /\ (forall a b, clean_text s <> a ++ [SPACE; SPACE] ++ b).
Proof.
  intros s.
  assert (Hws : Forall word (split (strip s))) by apply split_words.
  rewrite (clean_text_join s).
  set (ws := split (strip s)) in *.
  repeat split.
  - rewrite clean_text_join, strip_join, split_join by assumption.
    reflexivity.
  - intros c r E. pose proof (join_tight ws Hws) as Ht.
    rewrite E in Ht. exact Ht.
  - intros r c E. pose proof (join_tight_rev ws Hws) as Ht.
    rewrite E, rev_app_distr in Ht. exact Ht.
  - intros a b. apply join_single_spaced. assumption.
Qed.

(** The property at a text with blanks on both sides and inside. *)
Lemma clean_text_idempotent_witness :
  clean_text (clean_text (str "  Hello   World ")) = str "Hello World"
  /\ isspace 72%N = false /\ isspace 100%N = false.
Proof.
  destruct (clean_text_idempotent (str "  Hello   World "))
    as (Hidem & Hhead & Hlast & _).
  split; [|split].
  - rewrite Hidem. reflexivity.
  - apply (Hhead 72%N (str "ello World")). reflexivity.
  - apply (Hlast (str "Hello Worl") 100%N). reflexivity.
Defined.

(* ================================================================== *)
(** * Reasoning about computations *)
(* ================================================================== *)

Lemma returns_ret {A} (a : A) st (post : A -> state -> Prop) :
  post a st -> returns (ret a) st post.
Proof. intros H. exists a, st. split; [reflexivity | exact H]. Qed.

Lemma returns_bind {A B} (c : M A) (k : A -> M B) st
      (post : B -> state -> Prop) :
  returns c st (fun a st' => returns (k a) st' post) ->
  returns (bind c k) st post.
Proof.
  intros (a & st' & Hc & b & st'' & Hk & Hpost).
  exists b, st''. split; [|exact Hpost].
  unfold bind. rewrite Hc. exact Hk.
Qed.

Lemma returns_weaken {A} (c : M A) st (post post' : A -> state -> Prop) :
  returns c st post -> (forall a st', post a st' -> post' a st') ->
  returns c st post'.
Proof.
  intros (a & st' & Hc & Hpost) Himp. exists a, st'. auto.
Qed.

Lemma returns_run {A} (c : M A) st a st' (post : A -> state -> Prop) :
  returns c st post -> c st = (Ret a, st') -> post a st'.
Proof.
  intros (a0 & st0 & Hc & Hpost) E. rewrite E in Hc.
  injection Hc as <- <-. exact Hpost.
Qed.

Lemma grows_refl st : grows st st [] [].
Proof. constructor; now rewrite ?app_nil_r. Qed.

Lemma grows_trans st1 st2 st3 evs1 evs2 errs1 errs2 :
  grows st1 st2 evs1 errs1 -> grows st2 st3 evs2 errs2 ->
  grows st1 st3 (evs1 ++ evs2) (errs1 ++ errs2).
Proof.
  intros [Hm1 Hs1 Ht1 He1] [Hm2 Hs2 Ht2 He2]. constructor.
  - congruence.
  - congruence.
  - now rewrite Ht2, Ht1, app_assoc.
  - now rewrite He2, He1, app_assoc.
Qed.

Lemma grows_tick st : grows st (tick st) [] [].
Proof. constructor; simpl; now rewrite ?app_nil_r. Qed.

Lemma emit_grows e st :
  returns (emit e) st (fun _ st' => grows st st' [e] []).
Proof.
  eexists tt, _. split; [reflexivity|].
  constructor; simpl; now rewrite ?app_nil_r.
Qed.

Lemma errors_append_grows msg st :
  returns (errors_append msg) st (fun _ st' => grows st st' [] [msg]).
Proof.
  eexists tt, _. split; [reflexivity|].
  constructor; simpl; now rewrite ?app_nil_r.
Qed.

Lemma requested_app tr1 tr2 :
  requested (tr1 ++ tr2) = requested tr1 ++ requested tr2.
Proof. unfold requested. apply flat_map_app. Qed.

(** ** [range] *)

Lemma range_empty lo hi : hi <= lo -> range lo hi = [].
Proof.
  intros H. unfold range.
  replace (Z.to_nat (hi - lo)) with 0%nat by lia. reflexivity.
Qed.

Lemma range_cons lo hi : lo < hi -> range lo hi = lo :: range (lo + 1) hi.
Proof.
  intros H. unfold range.
  replace (Z.to_nat (hi - lo)) with (S (Z.to_nat (hi - (lo + 1)))) by lia.
  simpl. f_equal; [lia|].
  rewrite <- seq_shift, map_map. apply map_ext. intros i. lia.
Qed.

Lemma range_length lo hi : length (range lo hi) = Z.to_nat (hi - lo).
Proof. unfold range. now rewrite length_map, length_seq. Qed.

Lemma range_split : forall lo mid hi,
  lo <= mid <= hi -> range lo hi = range lo mid ++ range mid hi.
Proof.
  intros lo mid hi H.
  remember (Z.to_nat (mid - lo)) as n eqn:En.
  revert lo H En. induction n as [|n IH]; intros lo H En.
  - assert (lo = mid) by lia. subst lo.
    now rewrite (range_empty mid mid) by lia.
  - rewrite (range_cons lo hi), (range_cons lo mid) by lia.
    simpl. f_equal. apply IH; lia.
Qed.

Lemma range_nth lo hi i :
  (i < Z.to_nat (hi - lo))%nat ->
  nth_error (range lo hi) i = Some (lo + Z.of_nat i).
Proof.
  intros H. unfold range.
  rewrite nth_error_map, nth_error_nth' with (d := 0%nat)
    by now rewrite length_seq.
  rewrite seq_nth by assumption. reflexivity.
Qed.

(* ================================================================== *)
(** * The page loop without pages *)
(* ================================================================== *)

(** C9: with [max_pages <= 0] the loop body never runs: the call returns
    the empty list, completing normally, and leaves the state as it was, so
    no request was made, nothing printed, nothing logged. *)
Theorem scrape_all_pages_no_pages : forall (W : world) (st : state),
  max_pages st <= 0 ->
  scrape_all_pages W st = (Ret [], st)
  /\ requested (trace (snd (scrape_all_pages W st))) = requested (trace st).
Proof.
  intros W st H.
  assert (E : scrape_all_pages W st = (Ret [], st)).
  { unfold scrape_all_pages, bind, self_max_pages.
    rewrite range_empty by lia. reflexivity. }
  split; [exact E | now rewrite E].
Qed.

(** The property at a scraper built with [max_pages = 0] and at one built
    with [max_pages = -3], on a site that would serve pages. *)
Lemma scrape_all_pages_no_pages_witness :
  scrape_all_pages Samples.site (Samples.fresh 0)
    = (Ret [], Samples.fresh 0)
  /\ scrape_all_pages Samples.endless (Samples.fresh (-3))
    = (Ret [], Samples.fresh (-3)).
Proof.
  split.
  - apply (scrape_all_pages_no_pages Samples.site (Samples.fresh 0)).
    simpl. lia.
  - apply (scrape_all_pages_no_pages Samples.endless (Samples.fresh (-3))).
    simpl. lia.
Defined.

(* ================================================================== *)
(** * [fetch_page] *)
(* ================================================================== *)

Lemma get_headers_run W st :
  get_headers W st = (Ret (headers_at W st), tick st).
Proof. unfold headers_at, get_headers, bind, random_choice. reflexivity. Qed.

(** What [fetch_page] does, by the answer it gets. *)
Lemma fetch_page_run W url st :
  fetch_page W url st =
  let headers := headers_at W st in
  let failure (error_msg : pystr) (st1 : state) :=
    (Ret None,
     mkState (max_pages st) (session st) (errors st ++ [error_msg])
             (trace st1 ++ [Print (str "Error: " ++ error_msg)])
             (steps st1)) in
  if session st then
    let st1 :=
      mkState (max_pages st) (session st) (errors st)
              (trace st ++ [Request url headers]) (S (S (steps st))) in
    match answer W url st with
    | TransportError msg =>
        failure (str "Exception while fetching " ++ url ++ str ": " ++ msg)
                st1
    | Response status body =>
        if status =? 200 then
          match body with
          | Ret html => (Ret (Some (html_parser W html)), st1)
          | Raise msg =>
              failure
                (str "Exception while fetching " ++ url ++ str ": " ++ msg)
                st1
          end
        else
          failure
            (str "Failed to fetch " ++ url ++ str ": HTTP "
               ++ str_of_Z status) st1
    end
  else
    failure
      (str "Exception while fetching " ++ url ++ str ": "
         ++ str "'NoneType' object has no attribute 'get'") (tick st).
Proof.
  unfold fetch_page, bind at 1. rewrite get_headers_run.
  unfold try_except, bind, session_get, answer.
  change (session (tick st)) with (session st).
  change (steps (tick st)) with (S (steps st)).
  destruct (session st) eqn:Hs.
  - destruct (http W (S (steps st)) url (headers_at W st))
      as [msg | status [html | msg]];
      cbv [emit errors_append print ret raise response_text tick];
      cbn [max_pages session errors trace steps];
      try destruct (status =? 200);
      cbn [max_pages session errors trace steps];
      rewrite ?Hs; reflexivity.
  - cbv [emit errors_append print ret tick].
    cbn [max_pages session errors trace steps].
    rewrite ?Hs. reflexivity.
Qed.



(* ================================================================== *)
(** * [parse_article_from_card] *)
(* ================================================================== *)

Lemma truthy_nonempty (s : pystr) : truthy s = true <-> s <> [].
Proof. destruct s; simpl; split; congruence. Qed.

Lemma truthy_empty (s : pystr) : truthy s = false <-> s = [].
Proof. destruct s; simpl; split; congruence. Qed.

(** A card without a title link is skipped. *)
Lemma parse_no_title_link W card st :
  find card (str "a") (Some (str "loop-card__title-link")) = None ->
  parse_article_from_card W card st = (Ret None, st).
Proof. intros H. unfold parse_article_from_card. now rewrite H. Qed.

(** A card whose title cleans to nothing is skipped. *)
Lemma parse_blank_title W card st title_tag :
  find card (str "a") (Some (str "loop-card__title-link")) = Some title_tag ->
  clean_text (text title_tag) = [] ->
  parse_article_from_card W card st = (Ret None, st).
Proof.
  intros H E. unfold parse_article_from_card. now rewrite H, E.
Qed.

(** Every other card gives an article, whose fields are these. *)
Lemma parse_titled W card st title_tag :
  find card (str "a") (Some (str "loop-card__title-link")) = Some title_tag ->
  clean_text (text title_tag) <> [] ->
  exists a,
    parse_article_from_card W card st = (Ret (Some a), tick st)
    /\ source a = str "TechCrunch"
    /\ title a = clean_text (text title_tag)
    /\ url a =
         (let href := get title_tag (str "href") [] in
          if truthy href && negb (startswith href (str "http")) then
            if startswith href (str "/") then BASE_URL ++ href
            else BASE_URL ++ str "/" ++ href
          else href)
    /\ author a =
         match find card (str "a") (Some (str "loop-card__author")) with
         | Some author_tag => clean_text (text author_tag)
         | None => UNKNOWN
         end
    /\ publish_time a =
         (let raw_time :=
            match find card (str "time") None with
            | Some time_tag => get time_tag (str "datetime") []
            | None => []
            end in
          if truthy raw_time then
            match Datetime.fromisoformat
                    (replace_char 90%N (str "+00:00") raw_time) with
            | Some dt_obj => Datetime.strftime_minutes dt_obj
            | None => firstn 19 raw_time
            end
          else UNKNOWN)
    /\ hash a = get_hash (title a)
    /\ category a = None /\ excerpt a = None
    /\ scraped_at a = Datetime.strftime_seconds (wall_clock W (steps st)).
Proof.
  intros H Hne. apply truthy_nonempty in Hne.
  unfold parse_article_from_card. rewrite H, Hne. cbn [negb].
  eexists. split; [reflexivity|]. cbn [source title url author publish_time
    hash category excerpt scraped_at].
  repeat split.
  cbv zeta.
  destruct (find card (str "time") None) as [time_tag|]; [|reflexivity].
  unfold has_attr, get.
  destruct (dict_get (attrs_of time_tag) (str "datetime")) as [raw|];
    [|reflexivity].
  destruct (truthy raw) eqn:Hraw; reflexivity.
Qed.

(** What a returned article tells about the card. *)
Lemma parse_some W card st a st' :
  parse_article_from_card W card st = (Ret (Some a), st') ->
  exists title_tag,
    find card (str "a") (Some (str "loop-card__title-link")) = Some title_tag
    /\ clean_text (text title_tag) <> []
    /\ parse_article_from_card W card st = (Ret (Some a), tick st).
Proof.
  intros Hrun.
  destruct (find card (str "a") (Some (str "loop-card__title-link")))
    as [title_tag|] eqn:Hfind.
  - exists title_tag. split; [reflexivity|].
    destruct (clean_text (text title_tag)) as [|c r] eqn:Htitle.
    + rewrite (parse_blank_title W card st title_tag Hfind Htitle) in Hrun.
      discriminate.
    + assert (Hne : clean_text (text title_tag) <> [])
        by (rewrite Htitle; discriminate).
      rewrite <- Htitle. split; [exact Hne|].
      destruct (parse_titled W card st title_tag Hfind Hne) as (a0 & E & _).
      rewrite E in Hrun |- *. congruence.
  - rewrite (parse_no_title_link W card st Hfind) in Hrun. discriminate.
Qed.

(** Parsing a card always returns, without a trace. *)
Lemma parse_returns W card st :
  returns (parse_article_from_card W card) st
          (fun _ st' => grows st st' [] []).
Proof.
  destruct (find card (str "a") (Some (str "loop-card__title-link")))
    as [title_tag|] eqn:Hfind.
  - destruct (clean_text (text title_tag)) as [|c r] eqn:Htitle.
    + exists None, st. split; [|apply grows_refl].
      now apply (parse_blank_title W card st title_tag).
    + destruct (parse_titled W card st title_tag Hfind) as (a & E & _).
      * rewrite Htitle. discriminate.
      * exists (Some a), (tick st). split; [exact E | apply grows_tick].
  - exists None, st. split; [|apply grows_refl].
    now apply parse_no_title_link.
Qed.

Lemma app_nonempty_r {A} (l1 l2 : list A) : l2 <> [] -> l1 ++ l2 <> [].
Proof. intros H E. apply app_eq_nil in E. now destruct E. Qed.

Lemma strftime_minutes_nonempty dt : Datetime.strftime_minutes dt <> [].
Proof.
  unfold Datetime.strftime_minutes.
  apply app_nonempty_r. discriminate.
Qed.

Lemma firstn_nonempty {A} (n : nat) (l : list A) :
  l <> [] -> firstn (S n) l <> [].
Proof. destruct l; [contradiction | discriminate]. Qed.

(** C2 (amended): a returned article has a non-empty title, which is the
    cleaned text of the title link, and its url is empty exactly when the
    title link has no [href] or an empty one; a card is dropped only when
    it has no title link or when its title cleans to the empty string. *)
Theorem parse_article_title_and_url :
  forall (W : world) (card : node) (st st' : state) (r : option Article),
  parse_article_from_card W card st = (Ret r, st') ->
  match r with
  | Some a =>
      title a <> []
      /\ exists title_tag,
           find card (str "a") (Some (str "loop-card__title-link"))
             = Some title_tag
           /\ title a = clean_text (text title_tag)
           /\ (url a = [] <-> get title_tag (str "href") [] = [])
  | None =>
      find card (str "a") (Some (str "loop-card__title-link")) = None
      \/ exists title_tag,
           find card (str "a") (Some (str "loop-card__title-link"))
             = Some title_tag
           /\ clean_text (text title_tag) = []
  end.
Proof.
  intros W card st st' r Hrun.
  destruct (find card (str "a") (Some (str "loop-card__title-link")))
    as [title_tag|] eqn:Hfind.
  - destruct (clean_text (text title_tag)) as [|c t] eqn:Htitle.
    + rewrite (parse_blank_title W card st title_tag Hfind Htitle) in Hrun.
      injection Hrun as <- _. right. exists title_tag. auto.
    + assert (Hne : clean_text (text title_tag) <> [])
        by (rewrite Htitle; discriminate).
      destruct (parse_titled W card st title_tag Hfind Hne)
        as (a & E & _ & Ht & Hu & _).
      rewrite E in Hrun. injection Hrun as <- _.
      split; [rewrite Ht; exact Hne|].
      exists title_tag. split; [reflexivity|]. split; [now rewrite Ht|].
      rewrite Hu. cbv zeta.
      destruct (get title_tag (str "href") []) as [|h href]; [tauto|].
      split; [|discriminate].
      cbn [truthy andb].
      destruct (negb (startswith (h :: href) (str "http")));
        [|discriminate].
      destruct (startswith (h :: href) (str "/")); discriminate.
  - rewrite (parse_no_title_link W card st Hfind) in Hrun.
    injection Hrun as <- _. now left.
Qed.

(** The property at a card without [href], which is emitted with an empty
    url, and at a card without title link, which is dropped. *)
Lemma parse_article_title_and_url_witness :
  (exists a st',
     parse_article_from_card Samples.site Samples.card_no_href
                             (Samples.fresh 1) = (Ret (Some a), st')
     /\ title a <> [] /\ url a = [])
  /\ (exists st',
        parse_article_from_card Samples.site Samples.card_no_title
                                (Samples.fresh 1) = (Ret None, st')
        /\ find Samples.card_no_title (str "a")
                (Some (str "loop-card__title-link")) = None).
Proof.
  split.
  - eexists _, _. split; [vm_compute; reflexivity|].
    destruct (parse_article_title_and_url Samples.site Samples.card_no_href
                (Samples.fresh 1) (tick (Samples.fresh 1)) (Some _) eq_refl)
      as (Htitle & title_tag & Hfind & _ & Hurl).
    split; [exact Htitle|].
    apply Hurl. vm_compute in Hfind. injection Hfind as <-.
    vm_compute. reflexivity.
  - eexists. split; [vm_compute; reflexivity|].
    destruct (parse_article_title_and_url Samples.site Samples.card_no_title
                (Samples.fresh 1) (Samples.fresh 1) None)
      as [H | (t & H & _)].
    + vm_compute. reflexivity.
    + exact H.
    + vm_compute in H. discriminate.
Defined.

(** C2, as stated, fails: the card [Samples.card_no_href], whose title link
    has no [href], is returned as an article whose url is empty. *)
Lemma article_with_empty_url :
  ~ (forall (W : world) (card : node) (st st' : state) (a : Article),
       parse_article_from_card W card st = (Ret (Some a), st') ->
       title a <> [] /\ url a <> []).
Proof.
  intros H.
  destruct (parse_titled Samples.site Samples.card_no_href (Samples.fresh 1)
              (Samples.title_link [] "No link"))
    as (a & E & _ & _ & Hu & _).
  - vm_compute. reflexivity.
  - vm_compute. discriminate.
  - destruct (H _ _ _ _ _ E) as [_ Hurl]. apply Hurl.
    rewrite Hu. vm_compute. reflexivity.
Qed.

(** C3, at its failing input: the card [Samples.card_blank_author], whose
    author element holds only whitespace, is returned as an article whose
    author is the empty string. *)
Theorem blank_author_is_emitted :
  exists a st',
    parse_article_from_card Samples.site Samples.card_blank_author
                            (Samples.fresh 1) = (Ret (Some a), st')
    /\ find Samples.card_blank_author (str "a")
            (Some (str "loop-card__author")) <> None
    /\ author a = [].
Proof.
  destruct (parse_titled Samples.site Samples.card_blank_author
              (Samples.fresh 1)
              (Samples.title_link [(str "href", str "/a")] "Blank"))
    as (a & E & _ & _ & _ & Ha & _).
  - vm_compute. reflexivity.
  - vm_compute. discriminate.
  - exists a, (tick (Samples.fresh 1)). split; [exact E|].
    split; [vm_compute; discriminate|].
    rewrite Ha. vm_compute. reflexivity.
Qed.

(** What does hold of the two fields: the publish time is never empty, and
    each field is the sentinel when its element or attribute is absent. *)
Lemma parse_sentinels W card st a st' :
  parse_article_from_card W card st = (Ret (Some a), st') ->
  publish_time a <> []
  /\ (find card (str "a") (Some (str "loop-card__author")) = None ->
      author a = UNKNOWN)
  /\ (find card (str "time") None = None -> publish_time a = UNKNOWN)
  /\ (forall time_tag,
        find card (str "time") None = Some time_tag ->
        has_attr time_tag (str "datetime") = false ->
        publish_time a = UNKNOWN).
Proof.
  intros Hrun.
  destruct (parse_some W card st a st' Hrun) as (title_tag & Hfind & Hne & E).
  destruct (parse_titled W card st title_tag Hfind Hne)
    as (a0 & E0 & _ & _ & _ & Ha & Hp & _).
  assert (a0 = a) by congruence. subst a0.
  rewrite Ha, Hp. cbv zeta. repeat split.
  - destruct (truthy _) eqn:Hraw; [|discriminate].
    destruct (Datetime.fromisoformat _); [apply strftime_minutes_nonempty|].
    apply firstn_nonempty. now apply truthy_nonempty.
  - intros H. now rewrite H.
  - intros H. now rewrite H.
  - intros time_tag H Hattr. rewrite H. unfold has_attr in Hattr. unfold get.
    destruct (dict_get (attrs_of time_tag) (str "datetime")); [discriminate|].
    reflexivity.
Qed.





(* ================================================================== *)
(** * The content hash *)
(* ================================================================== *)



(* ================================================================== *)
(** * Page URLs are distinct *)
(* ================================================================== *)

Lemma str_inj (s1 s2 : string) : str s1 = str s2 -> s1 = s2.
Proof.
  unfold str. intros H.
  rewrite <- (string_of_list_ascii_of_string s1),
          <- (string_of_list_ascii_of_string s2).
  f_equal.
  revert H. generalize (list_ascii_of_string s1) as l1.
  generalize (list_ascii_of_string s2) as l2.
  intros l2 l1. revert l2.
  induction l1 as [|a l1 IH]; intros [|b l2] H; try discriminate.
  - reflexivity.
  - simpl in H. injection H as Hab Hl. f_equal; [|now apply IH].
    rewrite <- (ascii_N_embedding a), <- (ascii_N_embedding b).
    now rewrite Hab.
Qed.

Lemma to_int_printable (n : Z) :
  Z.to_int n <> Decimal.Pos Decimal.Nil
  /\ Z.to_int n <> Decimal.Neg Decimal.Nil.
Proof.
  destruct n as [|p|p]; simpl; split; try discriminate; intros [= H];
    now apply (DecimalPos.Unsigned.to_uint_nonnil p).
Qed.

Lemma str_of_Z_inj (a b : Z) : str_of_Z a = str_of_Z b -> a = b.
Proof.
  unfold str_of_Z. intros H. apply str_inj in H.
  apply (f_equal NilZero.int_of_string) in H.
  destruct (to_int_printable a) as [Ha1 Ha2].
  destruct (to_int_printable b) as [Hb1 Hb2].
  rewrite !NilZero.isi in H by assumption.
  injection H as H. apply (f_equal Z.of_int) in H.
  now rewrite !DecimalZ.of_to in H.
Qed.

Lemma page_url_inj (a b : Z) : page_url a = page_url b -> a = b.
Proof.
  unfold page_url.
  destruct (Z.eqb_spec a 1) as [Ha|Ha], (Z.eqb_spec b 1) as [Hb|Hb];
    intros H.
  - congruence.
  - rewrite <- (app_nil_r BASE_URL) in H at 1.
    apply app_inv_head in H. discriminate.
  - rewrite <- (app_nil_r BASE_URL) in H at 2.
    apply app_inv_head in H. discriminate.
  - apply app_inv_head in H. apply app_inv_head in H.
    apply app_inv_tail in H. now apply str_of_Z_inj.
Qed.

(* ================================================================== *)
(** * [scrape_page] *)
(* ================================================================== *)

Lemma fetch_page_returns W url st :
  returns (fetch_page W url) st
    (fun r st' =>
       fetch_page W url st = (Ret r, st')
       /\ (r = None \/ exists html, r = Some (html_parser W html))
       /\ exists evs errs,
            grows st st' evs errs
            /\ requested evs = if session st then [url] else []).
Proof.
  unfold returns. rewrite fetch_page_run. cbv zeta.
  destruct (session st) eqn:Hs.
  - destruct (answer W url st) as [msg | status [html | msg]];
      try destruct (status =? 200);
      eexists _, _; (split; [reflexivity|]);
      (split; [reflexivity|]); (split; [eauto|]).
    all: try (eexists [Request url (headers_at W st); Print _], [_];
              split; [constructor; cbn; now rewrite <- ?app_assoc
                     | reflexivity]).
    eexists [Request url (headers_at W st)], [].
    split; [constructor; cbn; now rewrite ?app_nil_r | reflexivity].
  - eexists _, _. split; [reflexivity|]. split; [reflexivity|].
    split; [eauto|].
    eexists [Print _], [_].
    split; [constructor; cbn; now rewrite ?Hs | reflexivity].
Qed.

Lemma emitted_app rs1 rs2 : emitted (rs1 ++ rs2) = emitted rs1 ++ emitted rs2.
Proof. unfold emitted. apply flat_map_app. Qed.



(** The loop over the cards never leaves early, keeps what was accumulated
    and adds the articles of the cards in card order. *)
Lemma card_loop W : forall cards acc st,
  returns (for_in cards (card_step W) acc) st
    (fun r st' =>
       grows st st' [] []
       /\ exists articles,
            r = (Continue, acc ++ articles)
            /\ in_card_order W cards articles).
Proof.
  induction cards as [|card cards IH]; intros acc st.
  - apply returns_ret. split; [apply grows_refl|].
    exists []. split; [now rewrite app_nil_r|].
    exists []. split; [constructor | reflexivity].
  - cbn [for_in]. apply returns_bind. unfold card_step at 1.
    apply returns_bind.
    destruct (parse_returns W card st) as (r & st1 & Hparse & Hg1).
    exists r, st1. split; [exact Hparse|].
    set (acc1 := match r with Some a => acc ++ [a] | None => acc end).
    assert (Hstep :
      returns (match r with
               | Some a => ret (Continue, acc ++ [a])
               | None => ret (Continue, acc)
               end) st1
              (fun x st2 => x = (Continue, acc1) /\ st2 = st1)).
    { destruct r; apply returns_ret; auto. }
    apply (returns_weaken _ _ _ _ Hstep).
    intros x st2 [-> ->].
    apply (returns_weaken _ _ _ _ (IH acc1 st1)).
    intros x st3 (Hg2 & articles & -> & rs & Hrs & ->).
    split.
    + apply (grows_trans _ _ _ [] [] [] [] Hg1 Hg2).
    + exists (emitted (r :: rs)). split.
      * unfold acc1. destruct r; simpl; now rewrite <- ?app_assoc.
      * exists (r :: rs). split; [|reflexivity].
        constructor; [|exact Hrs]. now exists st, st1.
Qed.

(** [scrape_page] always returns.  It requests the page once (never, without
    a session) and what it returns is what that page yields. *)
Lemma scrape_page_returns W page_num st :
  returns (scrape_page W page_num) st
    (fun articles st' =>
       articles_of_page W page_num articles
       /\ exists evs errs,
            grows st st' evs errs
            /\ requested evs = if session st then [page_url page_num] else []).
Proof.
  unfold scrape_page. apply returns_bind.
  apply (returns_weaken _ _ _ _ (emit_grows _ st)).
  intros _ st1 Hg1. apply returns_bind.
  apply (returns_weaken _ _ _ _ (fetch_page_returns W _ st1)).
  intros soup st2 (Hfetch & Hsoup & evs2 & errs2 & Hg2 & Hreq).
  rewrite (grows_session _ _ _ _ Hg1) in Hreq.
  pose proof (grows_trans _ _ _ _ _ _ _ Hg1 Hg2) as Hg12.
  destruct Hsoup as [-> | (html & ->)].
  - apply returns_ret. split; [now left|].
    eexists _, _. split; [exact Hg12|].
    now rewrite requested_app, Hreq.
  - apply returns_bind.
    apply (returns_weaken _ _ _ _ (card_loop W _ [] st2)).
    intros r st3 (Hg3 & articles & -> & Horder).
    apply returns_bind.
    apply (returns_weaken _ _ _ _ (emit_grows _ st3)).
    intros _ st4 Hg4. apply returns_ret. cbn [snd app].
    split.
    + right. exists st1, html, st2. split; [exact Hfetch | exact Horder].
    + pose proof (grows_trans _ _ _ _ _ _ _ Hg12
                    (grows_trans _ _ _ _ _ _ _ Hg3 Hg4)) as Hg.
      eexists _, _. split; [exact Hg|].
      rewrite !requested_app, Hreq. cbn. now rewrite app_nil_r.
Qed.

(* ================================================================== *)
(** * The page loop *)
(* ================================================================== *)

Lemma for_in_app {A V} (body : A -> V -> M (ctl * V)) :
  forall (xs ys : list A) (s : V) (st : state),
  for_in (xs ++ ys) body s st =
  match for_in xs body s st with
  | (Ret (Continue, s'), st') => for_in ys body s' st'
  | other => other
  end.
Proof.
  induction xs as [|x xs IH]; intros ys s st.
  - simpl. unfold ret. destruct (for_in ys body s st) as [[[[|] s'']|e] st''];
      reflexivity.
  - cbn [app for_in]. unfold bind.
    destruct (body x s st) as [[[[|] s1]|e] st1]; [apply IH | |]; reflexivity.
Qed.

Lemma range_in lo hi p : In p (range lo hi) -> lo <= p < hi.
Proof.
  unfold range. rewrite in_map_iff. intros (i & <- & Hi).
  apply in_seq in Hi. lia.
Qed.

Lemma firstn_range lo hi n :
  (n <= Z.to_nat (hi - lo))%nat ->
  firstn n (range lo hi) = range lo (lo + Z.of_nat n).
Proof.
  intros H. destruct n as [|n].
  { cbn [firstn]. now rewrite range_empty by lia. }
  rewrite (range_split lo (lo + Z.of_nat (S n)) hi) by lia.
  replace (S n) with (length (range lo (lo + Z.of_nat (S n))) + 0)%nat at 1
    by (rewrite range_length; lia).
  rewrite firstn_app_2. cbn [firstn]. apply app_nil_r.
Qed.

Lemma in_firstn {A} (x : A) n l : In x (firstn n l) -> In x l.
Proof.
  intros H. rewrite <- (firstn_skipn n l). apply in_or_app. now left.
Qed.

(** One turn of the loop: the page is scraped, its articles are appended,
    and the loop goes on exactly when there were some. *)
Lemma page_step_returns W page_num acc st :
  returns (page_step W page_num acc) st
    (fun r st' =>
       exists articles evs errs,
         r = (match articles with [] => Break | _ :: _ => Continue end,
              acc ++ articles)
         /\ articles_of_page W page_num articles
         /\ grows st st' evs errs
         /\ requested evs = if session st then [page_url page_num] else []).
Proof.
  unfold page_step. apply returns_bind.
  apply (returns_weaken _ _ _ _ (scrape_page_returns W page_num st)).
  intros articles st1 (Hpage & evs1 & errs1 & Hg1 & Hreq).
  destruct articles as [|a articles].
  - apply returns_bind.
    apply (returns_weaken _ _ _ _ (emit_grows _ st1)).
    intros _ st2 Hg2. apply returns_ret.
    exists [], (evs1 ++ [Print (stop_message page_num)]), (errs1 ++ []).
    split; [reflexivity|]. split; [exact Hpage|].
    split; [exact (grows_trans _ _ _ _ _ _ _ Hg1 Hg2)|].
    rewrite requested_app, Hreq. cbn. now rewrite app_nil_r.
  - apply returns_bind. exists (max_pages st1), st1.
    split; [reflexivity|].
    apply returns_bind.
    assert (Hdelay :
      returns (if page_num <? max_pages st1 then random_delay else ret tt) st1
              (fun _ st2 => exists evs2, grows st1 st2 evs2 []
                                         /\ requested evs2 = [])).
    { destruct (page_num <? max_pages st1).
      - unfold random_delay.
        destruct (emit_grows Sleep (tick st1)) as ([] & st2 & E & Hg).
        exists tt, st2. split; [exact E|]. exists [Sleep].
        split; [|reflexivity].
        exact (grows_trans _ _ _ [] _ [] _ (grows_tick st1) Hg).
      - apply returns_ret. exists []. split; [apply grows_refl | reflexivity]. }
    apply (returns_weaken _ _ _ _ Hdelay).
    intros _ st2 (evs2 & Hg2 & Hreq2). apply returns_ret.
    exists (a :: articles), (evs1 ++ evs2), (errs1 ++ []).
    split; [reflexivity|]. split; [exact Hpage|].
    split; [exact (grows_trans _ _ _ _ _ _ _ Hg1 Hg2)|].
    rewrite requested_app, Hreq, Hreq2. now rewrite app_nil_r.
Qed.

(** The loop over [pages] always returns.  It visits a prefix of [pages],
    requesting each page of the prefix once and in order, and what it
    accumulates is the concatenation, in that order, of what each visited
    page yields. *)
Lemma page_loop W : forall pages acc st,
  returns (for_in pages (page_step W) acc) st
    (fun r st' =>
       exists per_page evs errs,
         snd r = acc ++ concat per_page
         /\ (length per_page <= length pages)%nat
         /\ Forall2 (articles_of_page W)
                    (firstn (length per_page) pages) per_page
         /\ grows st st' evs errs
         /\ requested evs =
              if session st
              then map page_url (firstn (length per_page) pages)
              else []).
Proof.
  induction pages as [|p pages IH]; intros acc st.
  - apply returns_ret. exists [], [], [].
    cbn [snd concat length firstn map].
    split; [now rewrite app_nil_r|]. split; [lia|].
    split; [constructor|]. split; [apply grows_refl|].
    now destruct (session st).
  - cbn [for_in]. apply returns_bind.
    apply (returns_weaken _ _ _ _ (page_step_returns W p acc st)).
    intros r st1 (articles & evs1 & errs1 & -> & Hpage & Hg1 & Hreq1).
    destruct articles as [|a articles].
    + apply returns_ret. exists [[]], evs1, errs1.
      cbn [snd concat length firstn map app].
      split; [reflexivity|]. split; [lia|].
      split; [constructor; [exact Hpage | constructor]|].
      split; [exact Hg1 | exact Hreq1].
    + apply (returns_weaken _ _ _ _ (IH (acc ++ a :: articles) st1)).
      intros r st2 (per_page & evs2 & errs2 & Hr & Hlen & Hall & Hg2 & Hreq2).
      exists ((a :: articles) :: per_page), (evs1 ++ evs2), (errs1 ++ errs2).
      cbn [length firstn concat].
      split; [now rewrite Hr, <- app_assoc|].
      split; [lia|].
      split; [constructor; assumption|].
      split; [exact (grows_trans _ _ _ _ _ _ _ Hg1 Hg2)|].
      rewrite requested_app, Hreq1, Hreq2.
      rewrite (grows_session _ _ _ _ Hg1).
      now destruct (session st).
Qed.

Lemma scrape_all_pages_run W st r st' :
  for_in (range 1 (max_pages st + 1)) (page_step W) [] st = (Ret r, st') ->
  scrape_all_pages W st = (Ret (snd r), st').
Proof.
  intros H. unfold scrape_all_pages, bind, self_max_pages. now rewrite H.
Qed.




(** C1: when the loop arrives at page [k] (it ran the pages before [k]
    without leaving, gathering [acc]) and [scrape_page k] yields no
    article, whether the fetch failed or the page had no card that parses,
    the loop ends there: [scrape_all_pages] returns [acc], the only thing
    that happens after the scrape of page [k] is the printing of the stop
    message, and no page after [k] is requested anywhere in the run. *)
Theorem empty_page_stops_the_loop :
  forall (W : world) (st : state) (k : Z) (acc : list Article)
         (st_k st_k' : state),
  1 <= k <= max_pages st ->
  for_in (range 1 k) (page_step W) [] st = (Ret (Continue, acc), st_k) ->
  scrape_page W k st_k = (Ret [], st_k') ->
  exists (st_end : state) (evs : list event),
    scrape_all_pages W st = (Ret acc, st_end)
    /\ trace st_end = trace st_k' ++ [Print (stop_message k)]
    /\ trace st_end = trace st ++ evs
    /\ forall j, k < j -> ~ In (page_url j) (requested evs).
Proof.
  intros W st k acc st_k st_k' Hk Hprefix Hpage.
  (* the turn for page [k] *)
  assert (Hstep : page_step W k acc st_k
                  = (Ret (Break, acc), snd (emit (Print (stop_message k)) st_k'))).
  { unfold page_step, bind. rewrite Hpage. cbn [app].
    rewrite app_nil_r. reflexivity. }
  (* the whole loop *)
  assert (Hloop : for_in (range 1 (max_pages st + 1)) (page_step W) [] st
                  = (Ret (Break, acc),
                     snd (emit (Print (stop_message k)) st_k'))).
  { rewrite (range_split 1 k (max_pages st + 1)) by lia.
    rewrite for_in_app, Hprefix.
    rewrite (range_cons k) by lia. cbn [for_in]. unfold bind.
    now rewrite Hstep. }
  (* what the run did *)
  pose proof (returns_run _ _ _ _ _ (page_loop W (range 1 k) [] st) Hprefix)
    as (per_page & evs1 & errs1 & _ & _ & _ & Hg1 & Hreq1).
  pose proof (returns_run _ _ _ _ _ (scrape_page_returns W k st_k) Hpage)
    as (_ & evs2 & errs2 & Hg2 & Hreq2).
  exists (snd (emit (Print (stop_message k)) st_k')),
         (evs1 ++ evs2 ++ [Print (stop_message k)]).
  split; [exact (scrape_all_pages_run W st _ _ Hloop)|].
  split; [reflexivity|].
  split.
  - cbn [emit snd trace].
    rewrite (grows_trace _ _ _ _ Hg2), (grows_trace _ _ _ _ Hg1).
    now rewrite <- !app_assoc.
  - intros j Hj Hin.
    rewrite !requested_app, Hreq1, Hreq2 in Hin. cbn [requested flat_map] in Hin.
    rewrite (grows_session _ _ _ _ Hg1) in Hin.
    destruct (session st); [|exact Hin].
    rewrite app_nil_r in Hin. apply in_app_or in Hin.
    destruct Hin as [Hin | [Hin | []]].
    + apply in_map_iff in Hin. destruct Hin as (p & Hp & Hin).
      apply page_url_inj in Hp. apply in_firstn, range_in in Hin. lia.
    + apply page_url_inj in Hin. lia.
Qed.

(** The property on the sample site for five pages, where page 1 has three
    valid cards and page 2 has none: the three articles are returned and
    only pages 1 and 2 are requested; and on a server that answers 503,
    where the fetch of page 1 fails. *)
Lemma empty_page_stops_the_loop_witness :
  (exists st_end,
     scrape_all_pages Samples.site (Samples.fresh 5)
       = (Ret Samples.gathered, st_end)
     /\ length Samples.gathered = 3%nat
     /\ requested (trace st_end) = [page_url 1; page_url 2]
     /\ ~ In (page_url 3) (requested (trace st_end)))
  /\ (exists st_end,
        scrape_all_pages Samples.unavailable (Samples.fresh 5)
          = (Ret [], st_end)
        /\ ~ In (page_url 2) (requested (trace st_end))).
Proof.
  split.
  - destruct (empty_page_stops_the_loop Samples.site (Samples.fresh 5) 2
                Samples.gathered Samples.after_first
                (snd (scrape_page Samples.site 2 Samples.after_first)))
      as (st_end & evs & Hrun & Hlast & Hall & Hnever).
    + cbn. lia.
    + vm_compute. reflexivity.
    + vm_compute. reflexivity.
    + exists st_end. split; [exact Hrun|]. split; [reflexivity|].
      split.
      * rewrite Hlast. vm_compute. reflexivity.
      * rewrite Hall. cbn [Samples.fresh trace app]. apply Hnever. lia.
  - destruct (empty_page_stops_the_loop Samples.unavailable (Samples.fresh 5)
                1 [] (Samples.fresh 5)
                (snd (scrape_page Samples.unavailable 1 (Samples.fresh 5))))
      as (st_end & evs & Hrun & _ & Hall & Hnever).
    + cbn. lia.
    + vm_compute. reflexivity.
    + vm_compute. reflexivity.
    + exists st_end. split; [exact Hrun|].
      rewrite Hall. cbn [Samples.fresh trace app]. apply Hnever. lia.
Defined.

(* ================================================================== *)
(** * More on [clean_text] *)
(* ================================================================== *)

Lemma split_from_trailing_space : forall s cur c,
  isspace c = true -> split_from cur (s ++ [c]) = split_from cur s.
Proof.
  induction s as [|x s IH]; intros cur c Hc; simpl.
  - rewrite Hc. destruct cur; reflexivity.
  - destruct (isspace x).
    + destruct cur; now rewrite IH.
    + now apply IH.
Qed.

Lemma split_from_trailing_blank : forall w s cur,
  blank w = true -> split_from cur (s ++ w) = split_from cur s.
Proof.
  induction w as [|c w IH] using rev_ind; intros s cur Hw.
  - now rewrite app_nil_r.
  - unfold blank in Hw. rewrite forallb_app in Hw.
    apply andb_true_iff in Hw. destruct Hw as [Hw Hc].
    simpl in Hc. rewrite andb_true_r in Hc.
    rewrite app_assoc, split_from_trailing_space by assumption.
    now apply IH.
Qed.

Lemma split_leading_blank : forall w s,
  blank w = true -> split (w ++ s) = split s.
Proof.
  unfold split. induction w as [|c w IH]; intros s Hw; [reflexivity|].
  simpl in Hw. apply andb_true_iff in Hw. destruct Hw as [Hc Hw].
  simpl. rewrite Hc. now apply IH.
Qed.

Lemma lstrip_cut s : exists w, blank w = true /\ s = w ++ lstrip s.
Proof.
  induction s as [|c r (w & Hw & E)].
  - now exists [].
  - simpl. destruct (isspace c) eqn:Hc.
    + exists (c :: w). simpl. rewrite Hc, Hw. split; [reflexivity|].
      now f_equal.
    + now exists [].
Qed.

Lemma blank_rev w : blank (rev w) = blank w.
Proof.
  unfold blank. induction w as [|c w IH]; [reflexivity|].
  simpl. rewrite forallb_app, IH. simpl.
  rewrite andb_true_r. apply andb_comm.
Qed.

Lemma rstrip_cut s : exists w, blank w = true /\ s = rstrip s ++ w.
Proof.
  unfold rstrip. destruct (lstrip_cut (rev s)) as (w & Hw & E).
  exists (rev w). split; [now rewrite blank_rev|].
  rewrite <- rev_app_distr, <- E. symmetry. apply rev_involutive.
Qed.

(** The call to [strip] changes nothing for [split]. *)
Lemma split_strip s : split (strip s) = split s.
Proof.
  unfold strip.
  destruct (lstrip_cut s) as (w1 & Hw1 & E1).
  destruct (rstrip_cut (lstrip s)) as (w2 & Hw2 & E2).
  rewrite E1 at 2. rewrite split_leading_blank by assumption.
  rewrite E2 at 2. unfold split.
  now rewrite split_from_trailing_blank.
Qed.

Lemma clean_text_words s : clean_text s = join [SPACE] (split s).
Proof. now rewrite clean_text_join, split_strip. Qed.

(** X1: two texts have the same cleaned form exactly when they have the
    same words, that is when they differ by whitespace only. *)
Theorem clean_text_eq_iff_same_words : forall s t : pystr,
  clean_text s = clean_text t <-> split s = split t.
Proof.
  intros s t. rewrite !clean_text_words. split.
  - intros H. apply (f_equal split) in H.
    now rewrite !split_join in H by apply split_words.
  - now intros ->.
Qed.

(** A text spread over lines and its one-line form. *)
Lemma clean_text_eq_iff_same_words_witness :
  clean_text [32; 97; 10; 9; 98; 32]%N = clean_text [97; 32; 98]%N.
Proof.
  apply (proj2 (clean_text_eq_iff_same_words
                  [32; 97; 10; 9; 98; 32]%N [97; 32; 98]%N)).
  reflexivity.
Defined.

Lemma visible_app a b : visible (a ++ b) = visible a ++ visible b.
Proof. unfold visible. apply filter_app. Qed.

Lemma visible_spaceless w : spaceless w -> visible w = w.
Proof.
  unfold visible. induction 1 as [|c w Hc _ IH]; [reflexivity|].
  simpl. rewrite Hc. simpl. now f_equal.
Qed.

Lemma visible_join ws :
  Forall word ws -> visible (join [SPACE] ws) = concat ws.
Proof.
  induction ws as [|w rest IH]; intros Hws; [reflexivity|].
  inversion Hws as [|? ? [_ Hw] Hrest]; subst.
  destruct rest as [|w' rest'].
  - simpl. rewrite app_nil_r. now apply visible_spaceless.
  - change (join [SPACE] (w :: w' :: rest'))
      with (w ++ [SPACE] ++ join [SPACE] (w' :: rest')).
    rewrite !visible_app, visible_spaceless, IH by assumption.
    reflexivity.
Qed.

Lemma concat_split_from : forall s cur,
  concat (split_from cur s) = rev cur ++ visible s.
Proof.
  induction s as [|c r IH]; intros cur; simpl.
  - destruct cur; simpl; now rewrite ?app_nil_r.
  - unfold visible. simpl. fold (visible r).
    destruct (isspace c); simpl.
    + destruct cur as [|x cur']; simpl; now rewrite IH.
    + rewrite IH. simpl. now rewrite <- app_assoc.
Qed.

Lemma visible_clean_text s : visible (clean_text s) = visible s.
Proof.
  rewrite clean_text_words, visible_join by apply split_words.
  unfold split. now rewrite concat_split_from.
Qed.

Lemma join_cons_length (sep w : pystr) rest :
  (length (join sep (w :: rest))
   <= length w + length sep + length (join sep rest))%nat.
Proof.
  destruct rest as [|w' rest']; cbn [join].
  - simpl. lia.
  - rewrite !length_app. lia.
Qed.

Lemma join_split_from_length : forall s cur,
  (length (join [SPACE] (split_from cur s)) <= length cur + length s)%nat.
Proof.
  induction s as [|c r IH]; intros cur; cbn [split_from].
  - destruct cur; cbn [join length]; [lia|]. rewrite length_rev. cbn. lia.
  - destruct (isspace c).
    + destruct cur as [|x cur'].
      * specialize (IH []). cbn [length] in *. lia.
      * pose proof (join_cons_length [SPACE] (rev (x :: cur'))
                      (split_from [] r)) as H.
        specialize (IH []). rewrite length_rev in H. cbn [length] in *.
        eapply Nat.le_trans; [exact H | lia].
    + specialize (IH (c :: cur)). cbn [length] in *. lia.
Qed.

Lemma clean_text_shorter s : (length (clean_text s) <= length s)%nat.
Proof.
  rewrite clean_text_words. apply (join_split_from_length s []).
Qed.

(** X2: cleaning keeps every character that is not whitespace, in its
    order and as often as it occurs, and never makes a text longer: only
    whitespace is removed or replaced. *)
Theorem clean_text_keeps_visible : forall s : pystr,
  visible (clean_text s) = visible s
  /\ (length (clean_text s) <= length s)%nat.
Proof.
  intros s. split; [apply visible_clean_text|].
  apply clean_text_shorter.
Qed.

Lemma in_join_words c ws :
  In c (join [SPACE] ws) -> c = SPACE \/ exists w, In w ws /\ In c w.
Proof.
  induction ws as [|w rest IH]; [intros []|].
  destruct rest as [|w' rest'].
  - simpl. intros H. right. exists w. auto.
  - change (join [SPACE] (w :: w' :: rest'))
      with (w ++ SPACE :: join [SPACE] (w' :: rest')).
    intros H. apply in_app_or in H. destruct H as [H | [H | H]].
    + right. exists w. split; [now left | exact H].
    + now left.
    + destruct (IH H) as [-> | (x & Hx & Hc)]; [now left|].
      right. exists x. split; [now right | exact Hc].
Qed.

Lemma clean_text_plain_spaces s c :
  In c (clean_text s) -> isspace c = true -> c = SPACE.
Proof.
  intros Hin Hc. rewrite clean_text_words in Hin.
  destruct (in_join_words c _ Hin) as [-> | (w & Hw & Hcw)]; [reflexivity|].
  pose proof (split_words s) as Hws. rewrite Forall_forall in Hws.
  destruct (Hws w Hw) as [_ Hsp]. unfold spaceless in Hsp.
  rewrite Forall_forall in Hsp. rewrite (Hsp c Hcw) in Hc. discriminate.
Qed.

(** X3: the only whitespace character a cleaned text can hold is the plain
    space U+0020: tabs, line breaks, no-break spaces and the like never
    survive. *)
Theorem clean_text_only_plain_spaces : forall (s : pystr) (c : N),
  In c (clean_text s) -> isspace c = true -> c = SPACE.
Proof. intros s c. apply clean_text_plain_spaces. Qed.

(** A tab inside and a line break at the end of a text. *)
Lemma clean_text_only_plain_spaces_witness :
  clean_text [97; 9; 98; 10]%N = [97; 32; 98]%N /\ 32%N = SPACE.
Proof.
  split; [reflexivity|].
  apply (clean_text_only_plain_spaces [97; 9; 98; 10]%N 32%N).
  - vm_compute. right. left. reflexivity.
  - reflexivity.
Defined.

Lemma visible_nil_blank s : visible s = [] <-> blank s = true.
Proof.
  unfold visible, blank. induction s as [|c r IH]; simpl; [tauto|].
  destruct (isspace c); simpl; [exact IH|].
  split; discriminate.
Qed.

(** X4: the cleaned text is empty exactly when the text is empty or holds
    whitespace only. *)
Theorem clean_text_empty_iff_blank : forall s : pystr,
  clean_text s = [] <-> blank s = true.
Proof.
  intros s. rewrite <- visible_nil_blank. split.
  - intros H. rewrite <- visible_clean_text. now rewrite H.
  - intros H. rewrite clean_text_words.
    destruct (split s) as [|w ws] eqn:E; [reflexivity|].
    exfalso.
    pose proof (concat_split_from s []) as Hc. fold (split s) in Hc.
    rewrite E, H in Hc. simpl in Hc.
    apply app_eq_nil in Hc. destruct Hc as [Hw _].
    pose proof (split_words s) as Hws. rewrite E in Hws.
    inversion Hws as [|? ? [Hne _] _]. contradiction.
Qed.

(** A text of line breaks and no-break spaces. *)
Lemma clean_text_empty_iff_blank_witness :
  clean_text [10; 160; 32; 13]%N = [].
Proof.
  apply (proj2 (clean_text_empty_iff_blank [10; 160; 32; 13]%N)).
  reflexivity.
Defined.

Lemma split_from_nonempty : forall s cur, cur <> [] -> split_from cur s <> [].
Proof.
  induction s as [|c r IH]; intros cur Hcur; simpl.
  - destruct cur; [contradiction | discriminate].
  - destruct (isspace c).
    + destruct cur; [contradiction | discriminate].
    + apply IH. discriminate.
Qed.

Lemma join_cons_more (sep w : pystr) (ws : list pystr) :
  ws <> [] -> join sep (w :: ws) = w ++ sep ++ join sep ws.
Proof. destruct ws; [contradiction | reflexivity]. Qed.

Lemma tight_rev_tail c r : tight (rev (c :: r)) -> tight (rev r).
Proof.
  simpl. destruct (rev r); [intros _; exact I | tauto].
Qed.

(** On a text that is already clean, joining the words gives the text. *)
Lemma join_split_from_clean : forall s cur,
  (forall c, In c s -> isspace c = true -> c = SPACE) ->
  (forall a b, s <> a ++ SPACE :: SPACE :: b) ->
  tight (rev s) ->
  (cur = [] -> tight s) ->
  join [SPACE] (split_from cur s) = rev cur ++ s.
Proof.
  induction s as [|c r IH]; intros cur Hplain Hsingle Hend Hstart.
  - simpl. destruct cur; simpl; now rewrite ?app_nil_r.
  - assert (Hplain' : forall x, In x r -> isspace x = true -> x = SPACE)
      by (intros x Hx; apply Hplain; now right).
    assert (Hsingle' : forall a b, r <> a ++ SPACE :: SPACE :: b)
      by (intros a b E; apply (Hsingle (c :: a) b); now rewrite E).
    pose proof (tight_rev_tail c r Hend) as Hend'.
    cbn [split_from]. destruct (isspace c) eqn:Hc.
    + assert (c = SPACE) by (apply Hplain; [now left | exact Hc]). subst c.
      destruct cur as [|x cur'].
      { specialize (Hstart eq_refl). simpl in Hstart. congruence. }
      destruct r as [|c' r'].
      { simpl in Hend. congruence. }
      assert (Hc' : isspace c' = false).
      { destruct (isspace c') eqn:E; [|reflexivity]. exfalso.
        assert (c' = SPACE) by (apply Hplain'; [now left | exact E]).
        subst c'. now apply (Hsingle [] r'). }
      rewrite join_cons_more.
      * rewrite (IH [] Hplain' Hsingle' Hend' (fun _ => Hc')).
        cbn [rev app]. now rewrite <- app_assoc.
      * simpl. rewrite Hc'. apply split_from_nonempty. discriminate.
    + rewrite (IH (c :: cur) Hplain' Hsingle' Hend').
      * simpl. now rewrite <- app_assoc.
      * discriminate.
Qed.

(** X5: cleaning leaves a text as it is exactly when the text is already
    clean: no whitespace at either end, no whitespace character but the
    plain space, and no two spaces in a row. *)
Theorem clean_text_fixed_iff_clean : forall s : pystr,
  clean_text s = s
  <-> (tight s /\ tight (rev s)
       /\ (forall c, In c s -> isspace c = true -> c = SPACE)
       /\ (forall a b, s <> a ++ [SPACE; SPACE] ++ b)).
Proof.
  intros s. split.
  - intros E. rewrite <- E.
    pose proof (split_words s) as Hws.
    split; [|split; [|split]].
    + rewrite clean_text_words. now apply join_tight.
    + rewrite clean_text_words. now apply join_tight_rev.
    + intros c. apply clean_text_plain_spaces.
    + rewrite clean_text_words. now apply join_single_spaced.
  - intros (Hstart & Hend & Hplain & Hsingle).
    rewrite clean_text_words.
    apply (join_split_from_clean s []); auto.
Qed.

(** A text that is already clean. *)
Lemma clean_text_fixed_iff_clean_witness :
  clean_text (str "Hello World") = str "Hello World".
Proof.
  apply (proj2 (clean_text_fixed_iff_clean (str "Hello World"))).
  split; [reflexivity|]. split; [reflexivity|]. split.
  - intros c Hin Hc. cbv in Hin.
    repeat (destruct Hin as [Hin | Hin];
            [subst c; first [reflexivity | (vm_compute in Hc; discriminate)]|]).
    destruct Hin.
  - intros a b E.
    apply (join_single_spaced [str "Hello"; str "World"]) with (a := a) (b := b).
    + repeat constructor; discriminate.
    + exact E.
Defined.

(* ================================================================== *)
(** * The shape of a digest *)
(* ================================================================== *)







(* ================================================================== *)
(** * The headers of a request *)
(* ================================================================== *)

Lemma headers_at_browser W st : browser_headers (headers_at W st).
Proof.
  unfold headers_at, get_headers, bind, random_choice, ret.
  unfold USER_AGENTS at 1. cbv iota beta.
  split; [reflexivity|].
  eexists. split; [reflexivity|].
  apply nth_In. apply Nat.mod_upper_bound. discriminate.
Qed.

(** X7: [get_headers] never raises and always gives the same six headers,
    in the same order; the user agent is an entry of [USER_AGENTS], whatever
    the random draw. *)
Theorem get_headers_from_pool : forall (W : world) (st : state),
  exists headers st',
    get_headers W st = (Ret headers, st')
    /\ map fst headers = HEADER_NAMES
    /\ (exists user_agent,
          dict_get headers (str "User-Agent") = Some user_agent
          /\ In user_agent USER_AGENTS)
    /\ trace st' = trace st /\ errors st' = errors st.
Proof.
  intros W st. exists (headers_at W st), (tick st).
  split; [apply get_headers_run|].
  destruct (headers_at_browser W st) as [Hnames Hua].
  repeat split; assumption.
Qed.

(* ================================================================== *)
(** * What a fetch leaves behind *)
(* ================================================================== *)

Lemma sleeps_app tr1 tr2 : sleeps (tr1 ++ tr2) = (sleeps tr1 + sleeps tr2)%nat.
Proof. unfold sleeps. now rewrite filter_app, length_app. Qed.

Lemma printed_app tr1 tr2 : printed (tr1 ++ tr2) = printed tr1 ++ printed tr2.
Proof. unfold printed. apply flat_map_app. Qed.

Lemma fetch_event_no_sleep url evs :
  Forall (fetch_event url) evs -> sleeps evs = 0%nat.
Proof.
  induction 1 as [|e evs He _ IH]; [reflexivity|].
  destruct e; [exact IH | destruct He | exact IH].
Qed.

Lemma fetch_event_run_event url evs :
  Forall (fetch_event url) evs -> Forall run_event evs.
Proof.
  apply Forall_impl. intros [u h| |l]; simpl; tauto.
Qed.

Lemma fetch_page_events W url st :
  returns (fetch_page W url) st
    (fun r st' =>
       exists evs errs,
         grows st st' evs errs
         /\ Forall (fetch_event url) evs
         /\ printed evs = map (fun m => str "Error: " ++ m) errs
         /\ ((r = None /\ length errs = 1%nat) \/ (r <> None /\ errs = []))).
Proof.
  unfold returns. rewrite fetch_page_run. cbv zeta.
  pose proof (headers_at_browser W st) as Hh.
  destruct (session st) eqn:Hs.
  - destruct (answer W url st) as [msg | status [html | msg]];
      try destruct (status =? 200);
      eexists _, _; (split; [reflexivity|]).
    all: try (eexists [Request url (headers_at W st); Print _], [_];
              split; [constructor; cbn; now rewrite <- ?app_assoc|];
              split; [constructor; [split; [reflexivity | exact Hh]
                                   | constructor; [exact I | constructor]]|];
              split; [reflexivity|]; left; split; reflexivity).
    eexists [Request url (headers_at W st)], [].
    split; [constructor; cbn; now rewrite ?app_nil_r|].
    split; [constructor; [split; [reflexivity | exact Hh] | constructor]|].
    split; [reflexivity|]. right. split; [discriminate | reflexivity].
  - eexists _, _. split; [reflexivity|].
    eexists [Print _], [_].
    split; [constructor; cbn; now rewrite ?Hs|].
    split; [constructor; [exact I | constructor]|].
    split; [reflexivity|]. left. split; reflexivity.
Qed.

(** X8: every failed fetch is both logged and printed, and nothing else is:
    the lines [fetch_page] prints are its new entries of [errors], each
    after [Error: ]; it returns [None] exactly when it logged one message,
    and a document exactly when it logged none. *)
Theorem fetch_failure_logged_and_printed :
  forall (W : world) (url : pystr) (st st' : state) (r : option node),
  fetch_page W url st = (Ret r, st') ->
  exists evs errs,
    trace st' = trace st ++ evs
    /\ errors st' = errors st ++ errs
    /\ printed evs = map (fun m => str "Error: " ++ m) errs
    /\ (r = None <-> length errs = 1%nat)
    /\ (r <> None <-> errs = []).
Proof.
  intros W url st st' r Hrun.
  destruct (returns_run _ _ _ _ _ (fetch_page_events W url st) Hrun)
    as (evs & errs & Hg & _ & Hp & Hr).
  exists evs, errs.
  split; [apply (grows_trace _ _ _ _ Hg)|].
  split; [apply (grows_errors _ _ _ _ Hg)|].
  split; [exact Hp|].
  destruct Hr as [[-> Hlen] | [Hne ->]].
  - split; [tauto|]. split; [congruence|].
    intros ->. discriminate.
  - split; [|tauto]. split; [contradiction | discriminate].
Qed.

(** A server that answers 503, and the sample site. *)
Lemma fetch_failure_logged_and_printed_witness :
  (exists evs,
     trace (snd (fetch_page Samples.unavailable BASE_URL (Samples.fresh 1)))
       = [] ++ evs
     /\ printed evs
        = [str "Error: Failed to fetch https://techcrunch.com: HTTP 503"])
  /\ exists evs,
       trace (snd (fetch_page Samples.site BASE_URL (Samples.fresh 1)))
         = [] ++ evs
       /\ printed evs = [].
Proof.
  split.
  - destruct (fetch_failure_logged_and_printed Samples.unavailable BASE_URL
                (Samples.fresh 1)
                (snd (fetch_page Samples.unavailable BASE_URL
                                 (Samples.fresh 1))) None)
      as (evs & errs & Ht & He & Hp & _).
    + vm_compute. reflexivity.
    + exists evs. split; [exact Ht|].
      rewrite Hp. vm_compute in He. subst errs. vm_compute. reflexivity.
  - destruct (fetch_failure_logged_and_printed Samples.site BASE_URL
                (Samples.fresh 1)
                (snd (fetch_page Samples.site BASE_URL (Samples.fresh 1)))
                (Some Samples.page_one))
      as (evs & errs & Ht & _ & Hp & _ & Hr).
    + vm_compute. reflexivity.
    + exists evs. split; [exact Ht|].
      rewrite Hp, (proj1 Hr); [reflexivity | discriminate].
Defined.

(* ================================================================== *)
(** * The run, event by event *)
(* ================================================================== *)

Lemma grows_unique st st' evs errs evs' errs' :
  grows st st' evs errs -> grows st st' evs' errs' ->
  evs' = evs /\ errs' = errs.
Proof.
  intros [_ _ Ht He] [_ _ Ht' He']. split.
  - rewrite Ht in Ht'. now apply app_inv_head in Ht'.
  - rewrite He in He'. now apply app_inv_head in He'.
Qed.

Lemma fetch_page_full W url st :
  returns (fetch_page W url) st
    (fun r st' =>
       fetch_page W url st = (Ret r, st')
       /\ (r = None \/ exists html, r = Some (html_parser W html))
       /\ exists evs errs,
            grows st st' evs errs
            /\ requested evs = (if session st then [url] else [])
            /\ Forall (fetch_event url) evs
            /\ ((r = None /\ length errs = 1%nat)
                \/ (r <> None /\ errs = []))).
Proof.
  destruct (fetch_page_returns W url st)
    as (r & st' & Hrun & _ & Hr & evs & errs & Hg & Hreq).
  exists r, st'. split; [exact Hrun|]. split; [exact Hrun|].
  split; [exact Hr|]. exists evs, errs.
  destruct (returns_run _ _ _ _ _ (fetch_page_events W url st) Hrun)
    as (evs' & errs' & Hg' & Hev & _ & Hout).
  destruct (grows_unique _ _ _ _ _ _ Hg Hg') as [-> ->].
  auto.
Qed.

(** [scrape_page], with everything it does. *)
Lemma scrape_page_full W page_num st :
  returns (scrape_page W page_num) st
    (fun articles st' =>
       articles_of_page W page_num articles
       /\ exists evs errs,
            grows st st' evs errs
            /\ requested evs
               = (if session st then [page_url page_num] else [])
            /\ Forall (fetch_event (page_url page_num)) evs
            /\ (length errs <= 1)%nat
            /\ (errs <> [] -> articles = [])).
Proof.
  unfold scrape_page. apply returns_bind.
  apply (returns_weaken _ _ _ _ (emit_grows _ st)).
  intros _ st1 Hg1. apply returns_bind.
  apply (returns_weaken _ _ _ _ (fetch_page_full W _ st1)).
  intros soup st2 (Hfetch & Hsoup & evs2 & errs2 & Hg2 & Hreq & Hev & Hout).
  rewrite (grows_session _ _ _ _ Hg1) in Hreq.
  pose proof (grows_trans _ _ _ _ _ _ _ Hg1 Hg2) as Hg12.
  destruct Hsoup as [-> | (html & ->)].
  - apply returns_ret. split; [now left|].
    eexists _, _. split; [exact Hg12|].
    split; [now rewrite requested_app, Hreq|].
    split; [constructor; [exact I | exact Hev]|].
    split; [|reflexivity].
    destruct Hout as [[_ Hlen] | [_ ->]]; cbn [app length]; lia.
  - destruct Hout as [[Hnone _] | [_ ->]]; [discriminate|].
    apply returns_bind.
    apply (returns_weaken _ _ _ _ (card_loop W _ [] st2)).
    intros r st3 (Hg3 & articles & -> & Horder).
    apply returns_bind.
    apply (returns_weaken _ _ _ _ (emit_grows _ st3)).
    intros _ st4 Hg4. apply returns_ret. cbn [snd app].
    split.
    + right. exists st1, html, st2. split; [exact Hfetch | exact Horder].
    + pose proof (grows_trans _ _ _ _ _ _ _ Hg12
                    (grows_trans _ _ _ _ _ _ _ Hg3 Hg4)) as Hg.
      eexists _, _. split; [exact Hg|].
      split; [rewrite !requested_app, Hreq; cbn; now rewrite app_nil_r|].
      split.
      * constructor; [exact I|]. apply Forall_app. split; [exact Hev|].
        constructor; [exact I | constructor].
      * split; [cbn; lia|]. intros H. now contradiction H.
Qed.

(** One turn of the page loop, with everything it does. *)
Lemma page_step_full W page_num acc st :
  returns (page_step W page_num acc) st
    (fun r st' =>
       exists articles evs errs,
         r = (match articles with [] => Break | _ :: _ => Continue end,
              acc ++ articles)
         /\ articles_of_page W page_num articles
         /\ grows st st' evs errs
         /\ requested evs
            = (if session st then [page_url page_num] else [])
         /\ Forall run_event evs
         /\ (length errs <= 1)%nat
         /\ (errs <> [] -> articles = [])
         /\ sleeps evs
            = match articles with
              | [] => 0%nat
              | _ :: _ => if page_num <? max_pages st then 1%nat else 0%nat
              end).
Proof.
  unfold page_step. apply returns_bind.
  apply (returns_weaken _ _ _ _ (scrape_page_full W page_num st)).
  intros articles st1
         (Hpage & evs1 & errs1 & Hg1 & Hreq & Hev & Hlen & Herr).
  pose proof (fetch_event_no_sleep _ _ Hev) as Hquiet.
  apply fetch_event_run_event in Hev.
  destruct articles as [|a articles].
  - apply returns_bind.
    apply (returns_weaken _ _ _ _ (emit_grows _ st1)).
    intros _ st2 Hg2. apply returns_ret.
    exists [], (evs1 ++ [Print (stop_message page_num)]), (errs1 ++ []).
    split; [reflexivity|]. split; [exact Hpage|].
    split; [exact (grows_trans _ _ _ _ _ _ _ Hg1 Hg2)|].
    split; [rewrite requested_app, Hreq; cbn; now rewrite app_nil_r|].
    split; [apply Forall_app; split; [exact Hev | repeat constructor]|].
    rewrite app_nil_r. split; [exact Hlen|]. split; [reflexivity|].
    rewrite sleeps_app, Hquiet. reflexivity.
  - apply returns_bind. exists (max_pages st1), st1.
    split; [reflexivity|].
    rewrite (grows_max_pages _ _ _ _ Hg1).
    apply returns_bind.
    assert (Hdelay :
      returns (if page_num <? max_pages st then random_delay else ret tt) st1
              (fun _ st2 =>
                 grows st1 st2
                   (if page_num <? max_pages st then [Sleep] else []) [])).
    { destruct (page_num <? max_pages st).
      - unfold random_delay.
        destruct (emit_grows Sleep (tick st1)) as ([] & st2 & E & Hg).
        exists tt, st2. split; [exact E|].
        exact (grows_trans _ _ _ [] _ [] _ (grows_tick st1) Hg).
      - apply returns_ret. apply grows_refl. }
    apply (returns_weaken _ _ _ _ Hdelay).
    intros _ st2 Hg2. apply returns_ret.
    exists (a :: articles),
           (evs1 ++ if page_num <? max_pages st then [Sleep] else []),
           (errs1 ++ []).
    split; [reflexivity|]. split; [exact Hpage|].
    split; [exact (grows_trans _ _ _ _ _ _ _ Hg1 Hg2)|].
    split.
    { rewrite requested_app, Hreq.
      destruct (page_num <? max_pages st); cbn; now rewrite app_nil_r. }
    split.
    { apply Forall_app. split; [exact Hev|].
      destruct (page_num <? max_pages st); repeat constructor. }
    rewrite app_nil_r. split; [exact Hlen|]. split; [exact Herr|].
    rewrite sleeps_app, Hquiet.
    destruct (page_num <? max_pages st); reflexivity.
Qed.

(** The page loop, with everything it does: it either runs through all of
    [pages], each yielding some article, or leaves at the first page that
    yields none. *)
Lemma page_loop_full W : forall pages acc st,
  returns (for_in pages (page_step W) acc) st
    (fun r st' =>
       exists per_page evs errs,
         snd r = acc ++ concat per_page
         /\ (length per_page <= length pages)%nat
         /\ Forall2 (articles_of_page W)
                    (firstn (length per_page) pages) per_page
         /\ grows st st' evs errs
         /\ requested evs
            = (if session st
               then map page_url (firstn (length per_page) pages)
               else [])
         /\ Forall run_event evs
         /\ (length errs <= 1)%nat
         /\ ((fst r = Continue
              /\ length per_page = length pages
              /\ Forall (fun l => l <> []) per_page
              /\ errs = []
              /\ sleeps evs
                 = length (filter (fun p => p <? max_pages st) pages))
             \/ (fst r = Break
                 /\ exists full,
                      per_page = full ++ [[]]
                      /\ Forall (fun l => l <> []) full
                      /\ sleeps evs
                         = length (filter (fun p => p <? max_pages st)
                                          (firstn (length full) pages))))).
Proof.
  induction pages as [|p pages IH]; intros acc st.
  - apply returns_ret. exists [], [], [].
    cbn [snd fst concat length firstn map filter].
    split; [now rewrite app_nil_r|]. split; [lia|].
    split; [constructor|]. split; [apply grows_refl|].
    split; [now destruct (session st)|].
    split; [constructor|]. split; [lia|].
    left. repeat split. constructor.
  - cbn [for_in]. apply returns_bind.
    apply (returns_weaken _ _ _ _ (page_step_full W p acc st)).
    intros r st1 (articles & evs1 & errs1 & -> & Hpage & Hg1 & Hreq1
                  & Hev1 & Hlen1 & Herr1 & Hsl1).
    destruct articles as [|a articles].
    + apply returns_ret. exists [[]], evs1, errs1.
      cbn [snd fst concat length firstn map app].
      split; [reflexivity|]. split; [lia|].
      split; [constructor; [exact Hpage | constructor]|].
      split; [exact Hg1|]. split; [exact Hreq1|].
      split; [exact Hev1|]. split; [exact Hlen1|].
      right. split; [reflexivity|]. exists [].
      split; [reflexivity|]. split; [constructor|]. exact Hsl1.
    + assert (errs1 = []) as ->.
      { destruct errs1; [reflexivity|].
        assert (H : a :: articles = []) by (apply Herr1; discriminate).
        discriminate H. }
      apply (returns_weaken _ _ _ _ (IH (acc ++ a :: articles) st1)).
      intros r st2 (per_page & evs2 & errs2 & Hr & Hlen & Hall & Hg2 & Hreq2
                    & Hev2 & Hlen2 & Hshape).
      rewrite (grows_session _ _ _ _ Hg1) in Hreq2.
      rewrite (grows_max_pages _ _ _ _ Hg1) in Hshape.
      exists ((a :: articles) :: per_page), (evs1 ++ evs2), ([] ++ errs2).
      cbn [length firstn concat].
      split; [now rewrite Hr, <- app_assoc|].
      split; [lia|].
      split; [constructor; assumption|].
      split; [exact (grows_trans _ _ _ _ _ _ _ Hg1 Hg2)|].
      split.
      { rewrite requested_app, Hreq1, Hreq2. now destruct (session st). }
      split; [apply Forall_app; split; assumption|].
      split; [exact Hlen2|].
      rewrite sleeps_app, Hsl1.
      destruct Hshape as [(Hc & Hfull & Hne & -> & Hsl)
                         | (Hc & full & -> & Hne & Hsl)].
      * left. split; [exact Hc|]. split; [now rewrite Hfull|].
        split; [constructor; [discriminate | exact Hne]|].
        split; [reflexivity|].
        cbn [filter]. rewrite Hsl.
        destruct (p <? max_pages st); reflexivity.
      * right. split; [exact Hc|]. exists ((a :: articles) :: full).
        split; [reflexivity|].
        split; [constructor; [discriminate | exact Hne]|].
        cbn [length firstn filter]. rewrite Hsl.
        destruct (p <? max_pages st); reflexivity.
Qed.

Lemma filter_all {A} (f : A -> bool) (l : list A) :
  (forall x, In x l -> f x = true) -> filter f l = l.
Proof.
  induction l as [|x l IH]; intros H; [reflexivity|].
  simpl. rewrite (H x) by now left.
  f_equal. apply IH. intros y Hy. apply H. now right.
Qed.

Lemma range_snoc lo hi : lo <= hi -> range lo (hi + 1) = range lo hi ++ [hi].
Proof.
  intros H. rewrite (range_split lo hi (hi + 1)) by lia.
  rewrite (range_cons hi) by lia.
  now rewrite (range_empty (hi + 1) (hi + 1)) by lia.
Qed.

Lemma range_below lo hi m :
  hi <= m -> filter (fun p => p <? m) (range lo hi) = range lo hi.
Proof.
  intros H. apply filter_all. intros p Hp. apply range_in in Hp.
  apply Z.ltb_lt. lia.
Qed.



(** A whole run of [scrape_all_pages], by the number [n] of pages visited. *)
Lemma scrape_all_pages_full W st :
  exists per_page st' evs errs,
    scrape_all_pages W st = (Ret (concat per_page), st')
    /\ grows st st' evs errs
    /\ Z.of_nat (length per_page) <= Z.max 0 (max_pages st)
    /\ Forall2 (articles_of_page W)
               (range 1 (1 + Z.of_nat (length per_page))) per_page
    /\ requested evs
       = (if session st
          then map page_url (range 1 (1 + Z.of_nat (length per_page)))
          else [])
    /\ Forall run_event evs
    /\ (length errs <= 1)%nat
    /\ sleeps evs = Nat.pred (length per_page)
    /\ ((Z.of_nat (length per_page) = Z.max 0 (max_pages st)
         /\ Forall (fun l => l <> []) per_page /\ errs = [])
        \/ exists full,
             per_page = full ++ [[]] /\ Forall (fun l => l <> []) full).
Proof.
  destruct (page_loop_full W (range 1 (max_pages st + 1)) [] st)
    as (r & st' & Hrun & per_page & evs & errs & Hr & Hlen & Hall & Hg
        & Hreq & Hev & Hlen' & Hshape).
  rewrite range_length in Hlen.
  rewrite firstn_range in Hall, Hreq by lia.
  exists per_page, st', evs, errs. cbn [app] in Hr.
  split; [rewrite <- Hr; now apply scrape_all_pages_run|].
  split; [exact Hg|]. split; [lia|]. split; [exact Hall|].
  split; [exact Hreq|]. split; [exact Hev|]. split; [exact Hlen'|].
  destruct Hshape as [(_ & Hfull & Hne & -> & Hsl)
                     | (_ & full & -> & Hne & Hsl)].
  - rewrite range_length in Hfull. split.
    + rewrite Hsl, Hfull.
      destruct (Z.le_gt_cases (max_pages st) 0) as [Hm | Hm].
      * rewrite range_empty by lia.
        replace (Z.to_nat (max_pages st + 1 - 1)) with 0%nat by lia.
        reflexivity.
      * rewrite range_snoc, filter_app, range_below by lia.
        cbn [filter]. rewrite Z.ltb_irrefl, app_nil_r, range_length. lia.
    + left. split; [lia|]. split; [exact Hne | reflexivity].
  - rewrite length_app in Hlen |- *. cbn [length] in Hlen |- *.
    split.
    + rewrite Hsl, firstn_range, range_below, range_length by lia. lia.
    + right. exists full. split; [reflexivity | exact Hne].
Qed.










(* ================================================================== *)
(** * More on the parsing of a card *)
(* ================================================================== *)

Lemma clean_text_clean s : clean_text (clean_text s) = clean_text s.
Proof.
  rewrite (clean_text_join (clean_text s)), (clean_text_join s).
  now rewrite strip_join, split_join by apply split_words.
Qed.

Lemma parse_fields W card st a st' :
  parse_article_from_card W card st = (Ret (Some a), st') ->
  exists title_tag,
    find card (str "a") (Some (str "loop-card__title-link")) = Some title_tag
    /\ clean_text (text title_tag) <> []
    /\ st' = tick st
    /\ source a = str "TechCrunch"
    /\ title a = clean_text (text title_tag)
    /\ url a =
         (let href := get title_tag (str "href") [] in
          if truthy href && negb (startswith href (str "http")) then
            if startswith href (str "/") then BASE_URL ++ href
            else BASE_URL ++ str "/" ++ href
          else href)
    /\ author a =
         match find card (str "a") (Some (str "loop-card__author")) with
         | Some author_tag => clean_text (text author_tag)
         | None => UNKNOWN
         end
    /\ publish_time a =
         (let raw_time :=
            match find card (str "time") None with
            | Some time_tag => get time_tag (str "datetime") []
            | None => []
            end in
          if truthy raw_time then
            match Datetime.fromisoformat
                    (replace_char 90%N (str "+00:00") raw_time) with
            | Some dt_obj => Datetime.strftime_minutes dt_obj
            | None => firstn 19 raw_time
            end
          else UNKNOWN)
    /\ hash a = get_hash (title a)
    /\ category a = None /\ excerpt a = None.
Proof.
  intros Hrun.
  destruct (parse_some W card st a st' Hrun) as (title_tag & Hfind & Hne & E).
  destruct (parse_titled W card st title_tag Hfind Hne)
    as (a0 & E0 & Hs & Ht & Hu & Ha & Hp & Hh & Hc & He & _).
  assert (a0 = a) by congruence. subst a0.
  exists title_tag. repeat (split; [assumption|]).
  split; [congruence|]. repeat (split; [assumption|]). assumption.
Qed.



(** X14: in a returned article [title] and [author] are clean texts,
    that [clean_text] would leave unchanged; [source] is always
    [TechCrunch], and [category] and [excerpt] are always [None]. *)
Theorem parsed_fields_are_clean :
  forall (W : world) (card : node) (st st' : state) (a : Article),
  parse_article_from_card W card st = (Ret (Some a), st') ->
  clean_text (title a) = title a
  /\ clean_text (author a) = author a
  /\ source a = str "TechCrunch"
  /\ category a = None /\ excerpt a = None.
Proof.
  intros W card st st' a Hrun.
  destruct (parse_fields W card st a st' Hrun)
    as (title_tag & _ & _ & _ & Hs & Ht & _ & Ha & _ & _ & Hc & He).
  split; [rewrite Ht; apply clean_text_clean|].
  split; [|auto].
  rewrite Ha.
  destruct (find card (str "a") (Some (str "loop-card__author")));
    [apply clean_text_clean | reflexivity].
Qed.

(** The complete sample card, whose title is spread out. *)
Lemma parsed_fields_are_clean_witness :
  exists a st',
    parse_article_from_card Samples.site Samples.card_full (Samples.fresh 1)
      = (Ret (Some a), st')
    /\ clean_text (title a) = title a
    /\ title a = str "Hello World".
Proof.
  eexists _, _. split; [vm_compute; reflexivity|].
  split; [|vm_compute; reflexivity].
  apply (parsed_fields_are_clean Samples.site Samples.card_full
           (Samples.fresh 1) (tick (Samples.fresh 1))).
  vm_compute. reflexivity.
Defined.


(** X16: what a card parses to depends on the card alone: in any two runs,
    on any sites and in any states, the same card is kept in both or
    dropped in both, and the two articles agree on every field but
    [scraped_at]. *)
Theorem parse_depends_on_card_only :
  forall (W1 W2 : world) (card : node) (st1 st1' st2 st2' : state)
         (r1 r2 : option Article),
  parse_article_from_card W1 card st1 = (Ret r1, st1') ->
  parse_article_from_card W2 card st2 = (Ret r2, st2') ->
  match r1, r2 with
  | Some a1, Some a2 => same_content a1 a2
  | None, None => True
  | _, _ => False
  end.
Proof.
  intros W1 W2 card st1 st1' st2 st2' r1 r2 H1 H2.
  destruct (find card (str "a") (Some (str "loop-card__title-link")))
    as [title_tag|] eqn:Hfind.
  - destruct (clean_text (text title_tag)) as [|c t] eqn:Htitle.
    + rewrite (parse_blank_title W1 card st1 title_tag Hfind Htitle) in H1.
      rewrite (parse_blank_title W2 card st2 title_tag Hfind Htitle) in H2.
      injection H1 as <- _. injection H2 as <- _. exact I.
    + assert (Hne : clean_text (text title_tag) <> [])
        by (rewrite Htitle; discriminate).
      destruct (parse_titled W1 card st1 title_tag Hfind Hne)
        as (a1 & E1 & Hs1 & Ht1 & Hu1 & Ha1 & Hp1 & Hh1 & Hc1 & He1 & _).
      destruct (parse_titled W2 card st2 title_tag Hfind Hne)
        as (a2 & E2 & Hs2 & Ht2 & Hu2 & Ha2 & Hp2 & Hh2 & Hc2 & He2 & _).
      rewrite E1 in H1. rewrite E2 in H2.
      injection H1 as <- _. injection H2 as <- _.
      unfold same_content.
      rewrite Hs1, Hs2, Ht1, Ht2, Hu1, Hu2, Ha1, Ha2, Hp1, Hp2, Hh1, Hh2,
              Hc1, Hc2, He1, He2, Ht1, Ht2.
      repeat split.
  - rewrite (parse_no_title_link W1 card st1 Hfind) in H1.
    rewrite (parse_no_title_link W2 card st2 Hfind) in H2.
    injection H1 as <- _. injection H2 as <- _. exact I.
Qed.

(** The complete sample card, on two sites and in two states. *)
Lemma parse_depends_on_card_only_witness :
  exists a1 a2 st1' st2',
    parse_article_from_card Samples.site Samples.card_full (Samples.fresh 1)
      = (Ret (Some a1), st1')
    /\ parse_article_from_card Samples.offline Samples.card_full Samples.later
       = (Ret (Some a2), st2')
    /\ same_content a1 a2
    /\ scraped_at a1 <> scraped_at a2.
Proof.
  eexists _, _, _, _. split; [vm_compute; reflexivity|].
  split; [vm_compute; reflexivity|].
  split.
  - refine (parse_depends_on_card_only Samples.site Samples.offline
              Samples.card_full (Samples.fresh 1) _ Samples.later _
              (Some _) (Some _) _ _); vm_compute; reflexivity.
  - vm_compute. discriminate.
Defined.

(* ================================================================== *)
(** * What a page yields *)
(* ================================================================== *)







Lemma scrape_page_no_session W page_num st :
  session st = false ->
  exists st',
    scrape_page W page_num st = (Ret [], st')
    /\ grows st st'
         [Print (str "Scraping page " ++ str_of_Z page_num ++ str ": "
                   ++ page_url page_num);
          Print (str "Error: " ++ str "Exception while fetching "
                   ++ page_url page_num ++ str ": "
                   ++ str "'NoneType' object has no attribute 'get'")]
         [str "Exception while fetching " ++ page_url page_num ++ str ": "
            ++ str "'NoneType' object has no attribute 'get'"].
Proof.
  intros Hs.
  set (line := str "Scraping page " ++ str_of_Z page_num ++ str ": "
                 ++ page_url page_num).
  set (st1 := snd (print line st)).
  assert (Hs1 : session st1 = false) by exact Hs.
  assert (Hstart : forall k : option node -> M (list Article),
            k = (fun soup =>
                   match soup with
                   | None => ret []
                   | Some soup =>
                       r <- for_in (find_all soup (str "div")
                                      (Some CARD_CLASS)) (card_step W) [] ;;
                       print (str "Found " ++ str_of_nat (length (snd r))
                                ++ str " articles on page "
                                ++ str_of_Z page_num) ;;
                       ret (snd r)
                   end) ->
            scrape_page W page_num st
            = bind (fetch_page W (page_url page_num)) k st1)
    by (intros k ->; reflexivity).
  rewrite (Hstart _ eq_refl). unfold bind at 1.
  rewrite fetch_page_run. cbv zeta. rewrite Hs1.
  eexists. split; [reflexivity|].
  constructor; cbn; rewrite ?Hs, <- ?app_assoc; reflexivity.
Qed.

(** X18: a scraper used without its session (outside [async with]) makes no
    request: for [max_pages >= 1] the run returns no article, never sleeps,
    logs the one error of the attribute access on [None] for page 1, and
    stops. *)
Theorem run_without_session : forall (W : world) (st : state),
  session st = false ->
  1 <= max_pages st ->
  exists st',
    scrape_all_pages W st = (Ret [], st')
    /\ requested (trace st') = requested (trace st)
    /\ sleeps (trace st') = sleeps (trace st)
    /\ errors st'
       = errors st
           ++ [str "Exception while fetching https://techcrunch.com: 'NoneType' object has no attribute 'get'"].
Proof.
  intros W st Hs Hmax.
  destruct (scrape_page_no_session W 1 st Hs) as (st1 & Hpage & Hg).
  assert (Hstep : page_step W 1 [] st
                  = (Ret (Break, []), snd (print (stop_message 1) st1))).
  { unfold page_step, bind. rewrite Hpage. reflexivity. }
  assert (Hloop : for_in (range 1 (max_pages st + 1)) (page_step W) [] st
                  = (Ret (Break, []), snd (print (stop_message 1) st1))).
  { rewrite (range_cons 1) by lia. cbn [for_in]. unfold bind.
    now rewrite Hstep. }
  eexists. split; [exact (scrape_all_pages_run W st _ _ Hloop)|].
  cbn [print emit snd trace errors].
  rewrite (grows_trace _ _ _ _ Hg), (grows_errors _ _ _ _ Hg).
  rewrite !requested_app, !sleeps_app. cbn [requested flat_map app sleeps
    filter length]. rewrite !app_nil_r, !Nat.add_0_r.
  split; [reflexivity|]. split; [reflexivity|]. reflexivity.
Qed.

(** A scraper that never entered its context, on the sample site. *)
Lemma run_without_session_witness :
  exists st',
    scrape_all_pages Samples.site (mkState 5 false [] [] 0) = (Ret [], st')
    /\ requested (trace st') = []
    /\ length (errors st') = 1%nat.
Proof.
  destruct (run_without_session Samples.site (mkState 5 false [] [] 0))
    as (st' & Hrun & Hreq & _ & Herr).
  - reflexivity.
  - cbn. lia.
  - exists st'. split; [exact Hrun|]. split; [exact Hreq|].
    now rewrite Herr.
Defined.

(* ================================================================== *)
(** * The author statistics of the report *)
(* ================================================================== *)

Lemma pystr_eqb_eq (a b : pystr) : pystr_eqb a b = true <-> a = b.
Proof.
  unfold pystr_eqb. destruct (list_eq_dec N.eq_dec a b); split;
    congruence.
Qed.

Lemma pystr_eqb_refl (a : pystr) : pystr_eqb a a = true.
Proof. now apply pystr_eqb_eq. Qed.

Lemma pystr_eqb_neq (a b : pystr) : pystr_eqb a b = false <-> a <> b.
Proof.
  unfold pystr_eqb. destruct (list_eq_dec N.eq_dec a b); split;
    congruence.
Qed.

Lemma counter_get_add c x a :
  counter_get (counter_add x c) a
  = if pystr_eqb x a
    then Some (S (match counter_get c x with Some n => n | None => 0%nat end))
    else counter_get c a.
Proof.
  induction c as [|[k n] c IH]; cbn [counter_add counter_get].
  - reflexivity.
  - destruct (pystr_eqb k x) eqn:Hkx; cbn [counter_get].
    + apply pystr_eqb_eq in Hkx. subst k.
      destruct (pystr_eqb x a); reflexivity.
    + rewrite IH. destruct (pystr_eqb x a) eqn:Hxa.
      * apply pystr_eqb_eq in Hxa. subst a. now rewrite Hkx.
      * reflexivity.
Qed.

Lemma counter_add_keys c x :
  map fst (counter_add x c)
  = match counter_get c x with
    | Some _ => map fst c
    | None => map fst c ++ [x]
    end.
Proof.
  induction c as [|[k n] c IH]; cbn [counter_add counter_get]; [reflexivity|].
  destruct (pystr_eqb k x); cbn [map fst]; [reflexivity|].
  rewrite IH. destruct (counter_get c x); reflexivity.
Qed.

Lemma counter_get_in c x n :
  counter_get c x = Some n -> In (x, n) c.
Proof.
  induction c as [|[k m] c IH]; cbn [counter_get]; [discriminate|].
  destruct (pystr_eqb k x) eqn:Hkx.
  - apply pystr_eqb_eq in Hkx. intros [= ->]. subst k. now left.
  - intros H. right. now apply IH.
Qed.

Lemma counter_get_none c x : counter_get c x = None -> ~ In x (map fst c).
Proof.
  induction c as [|[k m] c IH]; cbn [counter_get]; [intros _ []|].
  destruct (pystr_eqb k x) eqn:Hkx; [discriminate|].
  apply pystr_eqb_neq in Hkx. intros H [Hin | Hin]; [contradiction|].
  now apply IH.
Qed.

Lemma in_counter_get c x n :
  NoDup (map fst c) -> In (x, n) c -> counter_get c x = Some n.
Proof.
  induction c as [|[k m] c IH]; [intros _ []|].
  cbn [map fst counter_get]. intros Hnd [Hin | Hin].
  - injection Hin as -> ->. now rewrite pystr_eqb_refl.
  - inversion Hnd as [|? ? Hk Hnd']; subst.
    destruct (pystr_eqb k x) eqn:Hkx.
    + apply pystr_eqb_eq in Hkx. subst k. exfalso. apply Hk.
      apply in_map_iff. now exists (x, n).
    + now apply IH.
Qed.

Lemma occurrences_snoc a l x :
  occurrences a (l ++ [x])
  = (occurrences a l + if pystr_eqb a x then 1 else 0)%nat.
Proof.
  unfold occurrences. rewrite filter_app, length_app. cbn [filter].
  destruct (pystr_eqb a x); reflexivity.
Qed.

Lemma counts_add c seen x : counts c seen -> counts (counter_add x c) (seen ++ [x]).
Proof.
  intros [Hnd Hget]. split.
  - rewrite counter_add_keys. destruct (counter_get c x) eqn:E; [exact Hnd|].
    apply NoDup_app; [exact Hnd | constructor; [intros [] | constructor]|].
    intros a Ha [Hx | []]. subst a. now apply (counter_get_none c x).
  - intros a. rewrite counter_get_add, occurrences_snoc.
    destruct (pystr_eqb x a) eqn:Hxa.
    + apply pystr_eqb_eq in Hxa. subst a. rewrite pystr_eqb_refl, Hget.
      destruct (occurrences x seen); cbn; [reflexivity|].
      do 2 f_equal. lia.
    + assert (Hax : pystr_eqb a x = false).
      { apply pystr_eqb_neq. apply pystr_eqb_neq in Hxa. congruence. }
      rewrite Hax, Nat.add_0_r. apply Hget.
Qed.

Lemma Counter_counts items : counts (Counter items) items.
Proof.
  unfold Counter.
  assert (H : forall l c seen,
             counts c seen ->
             counts (fold_left (fun c x => counter_add x c) l c) (seen ++ l)).
  { induction l as [|x l IH]; intros c seen Hc; cbn [fold_left].
    - now rewrite app_nil_r.
    - replace (seen ++ x :: l) with ((seen ++ [x]) ++ l)
        by now rewrite <- app_assoc.
      apply IH. now apply counts_add. }
  apply (H items [] []). split; [constructor | reflexivity].
Qed.

Lemma Counter_entry items a n :
  In (a, n) (Counter items)
  <-> n = occurrences a items /\ (1 <= n)%nat.
Proof.
  destruct (Counter_counts items) as [Hnd Hget]. split.
  - intros Hin. apply (in_counter_get _ _ _ Hnd) in Hin.
    rewrite Hget in Hin. destruct (occurrences a items); [discriminate|].
    injection Hin as <-. split; [reflexivity | lia].
  - intros [-> Hn]. apply counter_get_in. rewrite Hget.
    destruct (occurrences a items); [lia | reflexivity].
Qed.

Lemma occurrences_in a l : In a l -> (1 <= occurrences a l)%nat.
Proof.
  unfold occurrences. induction l as [|x l IH]; [intros []|].
  cbn [filter]. intros [-> | Hin].
  - rewrite pystr_eqb_refl. cbn. lia.
  - destruct (pystr_eqb a x); cbn; [lia | now apply IH].
Qed.

Lemma occurrences_pos_in a l : (1 <= occurrences a l)%nat -> In a l.
Proof.
  unfold occurrences. induction l as [|x l IH]; cbn [filter length]; [lia|].
  destruct (pystr_eqb a x) eqn:E.
  - apply pystr_eqb_eq in E. subst x. now left.
  - intros H. right. now apply IH.
Qed.

(** ** Sorting by count *)

Lemma insert_by_count_perm x l : Permutation (insert_by_count x l) (x :: l).
Proof.
  induction l as [|y l IH]; cbn [insert_by_count]; [reflexivity|].
  destruct (snd y <? snd x)%nat; [reflexivity|].
  rewrite IH. apply perm_swap.
Qed.

Lemma sorted_by_count_perm l : Permutation (sorted_by_count l) l.
Proof.
  unfold sorted_by_count.
  assert (H : forall l acc,
             Permutation (fold_left (fun acc x => insert_by_count x acc) l acc)
                         (acc ++ l)).
  { induction l0 as [|x l0 IH]; intros acc; cbn [fold_left].
    - now rewrite app_nil_r.
    - rewrite IH, insert_by_count_perm. apply Permutation_middle. }
  apply (H l []).
Qed.

Lemma insert_by_count_falls x l :
  by_falling_count l -> by_falling_count (insert_by_count x l).
Proof.
  unfold by_falling_count.
  induction 1 as [|y l Hy Hl IH]; cbn [insert_by_count].
  - constructor; constructor.
  - destruct (Nat.ltb_spec (snd y) (snd x)) as [Hlt | Hge].
    + constructor; [|constructor; assumption].
      constructor; [lia|].
      eapply Forall_impl; [|exact Hy]. cbn. intros z Hz. lia.
    + constructor; [|exact IH].
      rewrite Forall_forall in *. intros z Hz.
      apply (Permutation_in _ (insert_by_count_perm x l)) in Hz.
      destruct Hz as [<- | Hz]; [exact Hge | now apply Hy].
Qed.

Lemma sorted_by_count_falls l : by_falling_count (sorted_by_count l).
Proof.
  unfold sorted_by_count.
  assert (H : forall l acc,
             by_falling_count acc ->
             by_falling_count
               (fold_left (fun acc x => insert_by_count x acc) l acc)).
  { induction l0 as [|x l0 IH]; intros acc Hacc; cbn [fold_left];
      [exact Hacc|].
    apply IH. now apply insert_by_count_falls. }
  apply H. constructor.
Qed.

Lemma falling_app_inv l1 l2 :
  by_falling_count (l1 ++ l2) ->
  by_falling_count l1
  /\ forall x y, In x l1 -> In y l2 -> (snd y <= snd x)%nat.
Proof.
  unfold by_falling_count. induction l1 as [|a l1 IH]; cbn [app].
  - intros _. split; [constructor | intros x y []].
  - intros H. inversion H as [|? ? Ha Hl]; subst.
    destruct (IH Hl) as [IH1 IH2].
    apply Forall_app in Ha. destruct Ha as [Ha1 Ha2].
    split; [now constructor|].
    intros x y [<- | Hx] Hy.
    + rewrite Forall_forall in Ha2. now apply Ha2.
    + now apply IH2.
Qed.

Lemma pystr_eqb_sym (a b : pystr) : pystr_eqb a b = pystr_eqb b a.
Proof.
  destruct (pystr_eqb b a) eqn:E.
  - apply pystr_eqb_eq in E. subst. apply pystr_eqb_refl.
  - apply pystr_eqb_neq in E. apply pystr_eqb_neq. congruence.
Qed.

Lemma known_authors_in a articles :
  In a (known_authors articles)
  <-> a <> UNKNOWN
      /\ exists article, In article articles /\ author article = a.
Proof.
  unfold known_authors. rewrite in_map_iff. split.
  - intros (article & <- & Hin). apply filter_In in Hin.
    destruct Hin as [Hin Hne]. apply negb_true_iff, pystr_eqb_neq in Hne.
    split; [exact Hne | now exists article].
  - intros (Hne & article & Hin & <-). exists article.
    split; [reflexivity|]. apply filter_In. split; [exact Hin|].
    now apply negb_true_iff, pystr_eqb_neq.
Qed.

Lemma occurrences_known a articles :
  a <> UNKNOWN ->
  occurrences a (known_authors articles) = articles_by a articles.
Proof.
  intros Hne. unfold occurrences, known_authors, articles_by.
  induction articles as [|article articles IH]; [reflexivity|].
  cbn [filter].
  destruct (pystr_eqb (author article) UNKNOWN) eqn:Hu; cbn [negb map filter].
  - apply pystr_eqb_eq in Hu.
    assert (E : pystr_eqb (author article) a = false)
      by (apply pystr_eqb_neq; congruence).
    now rewrite E.
  - rewrite (pystr_eqb_sym a (author article)).
    destruct (pystr_eqb (author article) a); cbn [length]; now rewrite IH.
Qed.

Lemma NoDup_firstn {A} n (l : list A) : NoDup l -> NoDup (firstn n l).
Proof.
  intros H. rewrite <- (firstn_skipn n l) in H.
  now apply NoDup_app_remove_r in H.
Qed.

(** X19: the authors listed by the report are the (at most three) most
    productive ones: no author twice and never [Unknown], each with the
    exact number of its articles, by falling number of articles; and an
    author that is not listed has no more articles than any listed one. *)
Theorem top_authors_are_the_most_common : forall articles : list Article,
  (length (top_authors articles) <= 3)%nat
  /\ NoDup (map fst (top_authors articles))
  /\ by_falling_count (top_authors articles)
  /\ (forall a n,
        In (a, n) (top_authors articles) ->
        a <> UNKNOWN /\ n = articles_by a articles /\ (1 <= n)%nat)
  /\ (forall article,
        In article articles -> author article <> UNKNOWN ->
        In (author article) (map fst (top_authors articles))
        \/ (length (top_authors articles) = 3%nat
            /\ forall a n,
                 In (a, n) (top_authors articles) ->
                 (articles_by (author article) articles <= n)%nat)).
Proof.
  intros articles. unfold top_authors, most_common.
  set (authors := known_authors articles).
  set (sorted := sorted_by_count (Counter authors)).
  pose proof (sorted_by_count_perm (Counter authors)) as Hperm.
  fold sorted in Hperm.
  destruct (Counter_counts authors) as [Hnd _].
  assert (Hfall : by_falling_count (firstn 3 sorted ++ skipn 3 sorted))
    by (rewrite firstn_skipn; apply sorted_by_count_falls).
  apply falling_app_inv in Hfall. destruct Hfall as [Hfall Hcross].
  split; [apply firstn_le_length|].
  split.
  { rewrite <- firstn_map. apply NoDup_firstn.
    apply (Permutation_NoDup (Permutation_map fst (Permutation_sym Hperm))).
    exact Hnd. }
  split; [exact Hfall|].
  split.
  - intros a n Hin. apply in_firstn in Hin.
    apply (Permutation_in _ Hperm), Counter_entry in Hin.
    destruct Hin as [Hn Hpos].
    assert (Ha : a <> UNKNOWN).
    { rewrite Hn in Hpos. apply occurrences_pos_in in Hpos.
      now apply known_authors_in in Hpos. }
    split; [exact Ha|]. split; [|exact Hpos].
    rewrite Hn. now apply occurrences_known.
  - intros article Hin Hne.
    assert (Hb : In (author article) authors)
      by (apply known_authors_in; split; [exact Hne | now exists article]).
    assert (Hentry : In (author article, occurrences (author article) authors)
                        sorted).
    { apply (Permutation_in _ (Permutation_sym Hperm)), Counter_entry.
      split; [reflexivity | now apply occurrences_in]. }
    rewrite <- (firstn_skipn 3 sorted) in Hentry.
    apply in_app_or in Hentry. destruct Hentry as [Htop | Hrest].
    + left. apply in_map_iff.
      exists (author article, occurrences (author article) authors).
      split; [reflexivity | exact Htop].
    + right. split.
      * apply firstn_length_le.
        destruct (Nat.le_gt_cases 3 (length sorted)) as [H | H]; [exact H|].
        rewrite skipn_all2 in Hrest by lia. destruct Hrest.
      * intros a n Ha. specialize (Hcross _ _ Ha Hrest). cbn [snd] in Hcross.
        now rewrite <- (occurrences_known _ articles Hne).
Qed.

(** Nine articles: three by Bob, two by Ann, one by Cy, one by Dee and two
    without author. *)
Lemma top_authors_are_the_most_common_witness :
  top_authors newsroom = [(str "Bob", 3%nat); (str "Ann", 2%nat);
                          (str "Cy", 1%nat)]
  /\ 3%nat = articles_by (str "Bob") newsroom
  /\ (articles_by (str "Dee") newsroom <= 1)%nat.
Proof.
  destruct (top_authors_are_the_most_common newsroom)
    as (_ & _ & _ & Hentry & Htop).
  split; [vm_compute; reflexivity|]. split.
  - apply (Hentry (str "Bob") 3%nat). vm_compute. left. reflexivity.
  - destruct (Htop (article_by "Dee" "seven")) as [Hin | [_ Hle]].
    + vm_compute. tauto.
    + vm_compute. discriminate.
    + exfalso. vm_compute in Hin.
      repeat (destruct Hin as [Hin | Hin]; [discriminate Hin|]).
      exact Hin.
    + apply (Hle (str "Cy") 1%nat). vm_compute. tauto.
Defined.

(* ================================================================== *)
(** * What the report prints *)
(* ================================================================== *)

Lemma only_printed_refl st : only_printed st st [].
Proof. unfold only_printed. cbn. now rewrite app_nil_r. Qed.

Lemma only_printed_trans st1 st2 st3 l1 l2 :
  only_printed st1 st2 l1 -> only_printed st2 st3 l2 ->
  only_printed st1 st3 (l1 ++ l2).
Proof.
  intros (Hm1 & Hs1 & He1 & Hn1 & Ht1) (Hm2 & Hs2 & He2 & Hn2 & Ht2).
  unfold only_printed. repeat split; try congruence.
  now rewrite Ht2, Ht1, map_app, app_assoc.
Qed.

Lemma print_only line st :
  returns (print line) st (fun _ st' => only_printed st st' [line]).
Proof.
  eexists tt, _. split; [reflexivity|]. unfold only_printed. auto.
Qed.

Lemma for_each_print {A} (f : A -> pystr) (body : A -> M unit) :
  (forall x, body x = print (f x)) ->
  forall (xs : list A) st,
  returns (for_each xs body) st
          (fun _ st' => only_printed st st' (map f xs)).
Proof.
  intros Hbody xs st. unfold for_each. apply returns_bind.
  assert (H : forall xs st,
            returns (for_in xs (fun x (_ : unit) =>
                                  body x ;; ret (Continue, tt)) tt) st
                    (fun _ st' => only_printed st st' (map f xs))).
  { induction xs0 as [|x xs0 IH]; intros st0.
    - apply returns_ret. apply only_printed_refl.
    - cbn [for_in]. apply returns_bind, returns_bind. rewrite Hbody.
      apply (returns_weaken _ _ _ _ (print_only (f x) st0)).
      intros _ st1 H1. apply returns_ret.
      apply (returns_weaken _ _ _ _ (IH st1)).
      intros r st2 H2. exact (only_printed_trans _ _ _ _ _ H1 H2). }
  apply (returns_weaken _ _ _ _ (H xs st)).
  intros r st' Hp. now apply returns_ret.
Qed.

(** One more [print] after what [H] records. *)
Ltac printing H s' :=
  match type of H with
  | only_printed _ ?s _ =>
      apply returns_bind;
      apply (returns_weaken _ _ _ _ (print_only _ s));
      let H' := fresh "Hp" in
      intros _ s' H';
      apply (only_printed_trans _ _ _ _ _ H) in H';
      clear H; rename H' into H
  end.

Lemma generate_report_returns (articles : list Article) (st : state) :
  returns (generate_report articles) st
          (fun _ st' =>
             only_printed st st'
               (report_lines articles (max_pages st) (errors st))).
Proof.
  unfold generate_report, report_lines.
  pose proof (only_printed_refl st) as H1.
  printing H1 a1. printing H1 a2. printing H1 a3. printing H1 a4.
  apply returns_bind. exists (max_pages a4), a4. split; [reflexivity|].
  replace (max_pages a4) with (max_pages st) by (symmetry; apply H1).
  printing H1 a5.
  apply returns_bind. exists (errors a5), a5. split; [reflexivity|].
  replace (errors a5) with (errors st)
    by (symmetry; apply (proj1 (proj2 (proj2 H1)))).
  printing H1 s1. cbn [app] in H1.
  (* the errors *)
  apply returns_bind.
  set (error_lines := match errors st with
                      | [] => []
                      | _ :: _ =>
                          (NEWLINE ++ str "Errors:")
                            :: map (fun error => str "  - " ++ error)
                                   (errors st)
                      end).
  assert (Herr :
    returns (match errors st with
             | [] => ret tt
             | _ :: _ =>
                 print (NEWLINE ++ str "Errors:") ;;
                 for_each (errors st)
                          (fun error => print (str "  - " ++ error))
             end) s1
            (fun _ s2 => only_printed s1 s2 error_lines)).
  { unfold error_lines. destruct (errors st) as [|e errs].
    - apply returns_ret, only_printed_refl.
    - apply returns_bind.
      apply (returns_weaken _ _ _ _ (print_only _ s1)).
      intros _ s2 H2.
      eapply returns_weaken.
      { apply (for_each_print (fun error => str "  - " ++ error)).
        reflexivity. }
      intros u s3 H3. exact (only_printed_trans _ _ _ _ _ H2 H3). }
  apply (returns_weaken _ _ _ _ Herr). intros _ s2 H2.
  pose proof (only_printed_trans _ _ _ _ _ H1 H2) as H12. clear s1 H1 H2 Herr.
  (* the articles *)
  apply returns_bind.
  set (article_lines :=
         match articles with
         | [] => []
         | first :: _ =>
             [ NEWLINE ++ str "Latest article: " ++ title first;
               str "Oldest article: " ++ title (last articles first) ]
             ++ match known_authors articles with
                | [] => []
                | _ :: _ =>
                    (NEWLINE ++ str "Top authors:")
                      :: map author_line (top_authors articles)
                end
         end).
  assert (Hart :
    returns (match articles with
             | [] => ret tt
             | first :: _ =>
                 print (NEWLINE ++ str "Latest article: " ++ title first) ;;
                 print (str "Oldest article: "
                          ++ title (last articles first)) ;;
                 match known_authors articles with
                 | [] => ret tt
                 | _ :: _ =>
                     print (NEWLINE ++ str "Top authors:") ;;
                     for_each (top_authors articles)
                       (fun '(author, count) =>
                          print (str "  - " ++ author ++ str ": "
                                   ++ str_of_nat count ++ str " articles"))
                 end
             end) s2
            (fun _ s3 => only_printed s2 s3 article_lines)).
  { unfold article_lines. destruct articles as [|first rest].
    - apply returns_ret, only_printed_refl.
    - apply returns_bind.
      apply (returns_weaken _ _ _ _ (print_only _ s2)).
      intros _ s3 H3. apply returns_bind.
      apply (returns_weaken _ _ _ _ (print_only _ s3)).
      intros _ s4 H4.
      pose proof (only_printed_trans _ _ _ _ _ H3 H4) as H34.
      destruct (known_authors (first :: rest)) as [|a authors].
      + apply returns_ret. now rewrite app_nil_r.
      + apply returns_bind.
        apply (returns_weaken _ _ _ _ (print_only _ s4)).
        intros _ s5 H5.
        eapply returns_weaken.
        { apply (for_each_print author_line). intros [a0 n0]. reflexivity. }
        intros u s6 H6.
        exact (only_printed_trans _ _ _ _ _ H34
                 (only_printed_trans _ _ _ _ _ H5 H6)). }
  apply (returns_weaken _ _ _ _ Hart). intros _ s3 H3.
  pose proof (only_printed_trans _ _ _ _ _ H12 H3) as H123.
  clear s2 H12 H3 Hart.
  apply (returns_weaken _ _ _ _ (print_only RULE s3)).
  intros [] s4 H4.
  pose proof (only_printed_trans _ _ _ _ _ H123 H4) as Hall.
  rewrite <- !app_assoc in Hall. exact Hall.
Qed.

(** X20: [generate_report] never raises and only prints: it requests
    nothing, never sleeps, and leaves [errors] as they are.  It prints the
    heading with the three counts; then, when there are errors, every
    error in the order of the log; then, when there are articles, the
    titles of the first and of the last one and, when some author is
    known, the lines of the top authors; then the closing rule. *)
Theorem generate_report_prints :
  forall (articles : list Article) (st : state),
  exists st',
    generate_report articles st = (Ret tt, st')
    /\ only_printed st st'
         ([ NEWLINE ++ RULE; str "SCRAPING REPORT"; RULE;
            str "Total articles scraped: " ++ str_of_nat (length articles);
            str "Pages attempted: " ++ str_of_Z (max_pages st);
            str "Errors encountered: " ++ str_of_nat (length (errors st)) ]
          ++ match errors st with
             | [] => []
             | _ :: _ =>
                 (NEWLINE ++ str "Errors:")
                   :: map (fun error => str "  - " ++ error) (errors st)
             end
          ++ match articles with
             | [] => []
             | first :: _ =>
                 [ NEWLINE ++ str "Latest article: " ++ title first;
                   str "Oldest article: " ++ title (last articles first) ]
                 ++ match known_authors articles with
                    | [] => []
                    | _ :: _ =>
                        (NEWLINE ++ str "Top authors:")
                          :: map author_line (top_authors articles)
                    end
             end
          ++ [RULE]).
Proof.
  intros articles st.
  destruct (generate_report_returns articles st) as ([] & st' & Hrun & Hp).
  exists st'. split; [exact Hrun | exact Hp].
Qed.

(* ================================================================== *)
(** * The command line *)
(* ================================================================== *)

Lemma rows_of_articles (articles : list Article) :
  fold_left (fun data article => data ++ [Cli.article_row article]) articles []
  = map Cli.article_row articles.
Proof.
  assert (H : forall l acc,
             fold_left (fun data article => data ++ [Cli.article_row article])
                       l acc
             = acc ++ map Cli.article_row l).
  { induction l as [|a l IH]; intros acc; cbn [fold_left map].
    - now rewrite app_nil_r.
    - now rewrite IH, <- app_assoc. }
  apply (H articles []).
Qed.

Lemma save_articles_to_csv_run (D : Cli.disk) (articles : list Article)
      (filename : pystr) (p : Cli.process) :
  articles <> [] ->
  Cli.save_articles_to_csv D articles filename p
  = match Cli.to_csv D (str "output/" ++ filename)
                     (map Cli.article_row articles) with
    | Ret _ =>
        (Ret tt,
         Cli.mkProcess
           (snd (print (str "Saved " ++ str_of_nat (length articles)
                          ++ str " articles to " ++ filename)
                       (Cli.scraper p)))
           (Cli.files p
              ++ [(str "output/" ++ filename, map Cli.article_row articles)]))
    | Raise msg => (Raise msg, p)
    end.
Proof.
  intros Hne. destruct articles as [|a l]; [congruence|].
  unfold Cli.save_articles_to_csv. rewrite rows_of_articles.
  unfold Cli.pbind, Cli.write_csv, Cli.lift.
  destruct (Cli.to_csv D _ _); reflexivity.
Qed.

Section CommandLineProofs.

Variable W : world.
Variable D : Cli.disk.
Variable float : Type.
Variable float_negative : float -> bool.
Variable float_lt : float -> float -> bool.
Variable float_str : float -> pystr.

Let main := Cli.main W D float float_negative float_lt float_str.
Let valid := Cli.valid float float_negative float_lt.
Let started := Cli.started float float_str.

Lemma main_valid_run (args : Cli.Args float) (p : Cli.process)
      (articles : list Article) (st_end : state) :
  valid args = true ->
  scrape_all_pages W (started args (Cli.scraper p)) = (Ret articles, st_end) ->
  exists st',
    main args p
    = (Ret tt, Cli.mkProcess st' (Cli.files p ++ Cli.written float D args articles))
    /\ only_printed st_end st' (Cli.closing float D args articles st_end).
Proof.
  intros Hvalid Hrun. destruct p as [st fs]; cbn [Cli.scraper Cli.files] in *.
  unfold valid, Cli.valid in Hvalid.
  apply andb_true_iff in Hvalid. destruct Hvalid as [Hp Hd].
  apply negb_true_iff in Hp, Hd.
  unfold main, Cli.main. rewrite Hp, Hd.
  cbv [Cli.pbind Cli.lift Cli.ptry_except Cli.async_with Cli.pret
       Cli.TechCrunchScraper_new Cli.aenter Cli.aexit
       print emit ret Cli.scraper Cli.files
       max_pages session errors trace steps].
  match goal with
  | |- context [scrape_all_pages W ?s] => change s with (started args st)
  end.
  rewrite Hrun. destruct articles as [|a l].
  - eexists. split.
    + cbn [Cli.written]. rewrite app_nil_r. reflexivity.
    + unfold only_printed, Cli.closing. cbn. auto.
  - rewrite save_articles_to_csv_run by discriminate.
    unfold Cli.written, Cli.closing.
    cbn [Cli.scraper Cli.files].
    destruct (Cli.to_csv D _ _) as [u|msg].
    + destruct (Cli.no_report args); cbn [negb].
      * eexists. split; [reflexivity|].
        unfold only_printed. cbn. auto.
      * destruct (generate_report_returns (a :: l)
                    (snd (print (str "Saved " ++ str_of_nat (length (a :: l))
                                   ++ str " articles to " ++ Cli.output args)
                                st_end)))
          as (u' & s' & Hg & Hpost).
        cbn [Cli.scraper Cli.files]. rewrite Hg.
        destruct u'. eexists. split; [reflexivity|].
        change (?x :: ?r) with ([x] ++ r).
        eapply only_printed_trans; [|exact Hpost].
        unfold only_printed. cbn. auto.
    + eexists. split.
      * rewrite app_nil_r. reflexivity.
      * unfold only_printed. cbn. auto.
Qed.

End CommandLineProofs.

Lemma started_state (float : Type) (float_str : float -> pystr)
      (args : Cli.Args float) (st : state) :
  max_pages (Cli.started float float_str args st) = Cli.pages args
  /\ session (Cli.started float float_str args st) = true
  /\ errors (Cli.started float float_str args st) = []
  /\ trace (Cli.started float float_str args st)
     = trace st ++ map Print (Cli.banner float float_str args).
Proof.
  repeat split. cbn. now rewrite <- !app_assoc.
Qed.

Lemma requested_prints (lines : list pystr) : requested (map Print lines) = [].
Proof. induction lines as [|l lines IH]; [reflexivity | exact IH]. Qed.

Lemma sleeps_prints (lines : list pystr) : sleeps (map Print lines) = 0%nat.
Proof. induction lines as [|l lines IH]; [reflexivity | exact IH]. Qed.

Lemma main_invalid_run (W : world) (D : Cli.disk) (float : Type)
      (float_negative : float -> bool) (float_lt : float -> float -> bool)
      (float_str : float -> pystr) (args : Cli.Args float) (p : Cli.process) :
  Cli.valid float float_negative float_lt args = false ->
  exists st',
    Cli.main W D float float_negative float_lt float_str args p
    = (Ret tt, Cli.mkProcess st' (Cli.files p))
    /\ only_printed (Cli.scraper p) st'
         [if Cli.pages args <=? 0
          then str "Error: Number of pages must be greater than 0"
          else str "Error: Invalid delay parameters"].
Proof.
  intros Hvalid. unfold Cli.valid in Hvalid. unfold Cli.main.
  destruct (Cli.pages args <=? 0).
  - eexists. split; [reflexivity|]. unfold only_printed. cbn. auto.
  - cbn [negb andb] in Hvalid. apply negb_false_iff in Hvalid.
    rewrite Hvalid.
    eexists. split; [reflexivity|]. unfold only_printed. cbn. auto.
Qed.

(** X21: with arguments it does not accept (a number of pages that is not
    positive, or else a negative or decreasing delay range) [main] prints
    one line, the error, and does nothing else: no scraper is made, nothing
    is requested, no file is written. The number of pages is checked
    first. *)
Theorem main_rejects_invalid_arguments :
  forall (W : world) (D : Cli.disk) (float : Type)
         (float_negative : float -> bool) (float_lt : float -> float -> bool)
         (float_str : float -> pystr) (args : Cli.Args float)
         (p : Cli.process),
  Cli.valid float float_negative float_lt args = false ->
  exists p',
    Cli.main W D float float_negative float_lt float_str args p = (Ret tt, p')
    /\ Cli.files p' = Cli.files p
    /\ only_printed (Cli.scraper p) (Cli.scraper p')
         [if Cli.pages args <=? 0
          then str "Error: Number of pages must be greater than 0"
          else str "Error: Invalid delay parameters"]
    /\ requested (trace (Cli.scraper p')) = requested (trace (Cli.scraper p)).
Proof.
  intros W D float fneg flt fstr args p Hvalid.
  destruct (main_invalid_run W D float fneg flt fstr args p Hvalid)
    as (st' & Hmain & Hprint).
  eexists. split; [exact Hmain|]. cbn [Cli.files Cli.scraper].
  split; [reflexivity|]. split; [exact Hprint|].
  destruct Hprint as (_ & _ & _ & _ & Ht).
  now rewrite Ht, requested_app, requested_prints, app_nil_r.
Qed.

(** No page, and a delay range that decreases as well: the number of pages
    is what the error is about. *)
Lemma main_rejects_invalid_arguments_witness :
  exists p',
    Cli.main Samples.site Cli.writable Z (fun z => z <? 0) Z.ltb Cli.int_str
             (Cli.int_args 0 3 1 false) Cli.boot = (Ret tt, p')
    /\ Cli.files p' = []
    /\ trace (Cli.scraper p')
       = [Print (str "Error: Number of pages must be greater than 0")].
Proof.
  destruct (main_rejects_invalid_arguments
              Samples.site Cli.writable Z (fun z => z <? 0) Z.ltb Cli.int_str
              (Cli.int_args 0 3 1 false) Cli.boot eq_refl)
    as (p' & Hmain & Hfiles & (_ & _ & _ & _ & Ht) & _).
  exists p'. split; [exact Hmain|]. split; [exact Hfiles|]. exact Ht.
Defined.

(** X22: [main] never raises, whatever the server, the page and the disk
    do: an exception of the run or of the writing is caught and printed. It
    writes at most one file, [output/<output>], and never an empty table. *)
Theorem main_never_raises :
  forall (W : world) (D : Cli.disk) (float : Type)
         (float_negative : float -> bool) (float_lt : float -> float -> bool)
         (float_str : float -> pystr) (args : Cli.Args float)
         (p : Cli.process),
  exists p' new,
    Cli.main W D float float_negative float_lt float_str args p = (Ret tt, p')
    /\ Cli.files p' = Cli.files p ++ new
    /\ (new = []
        \/ exists rows,
             new = [(str "output/" ++ Cli.output args, rows)] /\ rows <> []).
Proof.
  intros W D float fneg flt fstr args p.
  destruct (Cli.valid float fneg flt args) eqn:Hvalid.
  - destruct (scrape_all_pages_full
                W (Cli.started float fstr args (Cli.scraper p)))
      as (per_page & st_end & evs & errs & Hrun & _).
    destruct (main_valid_run W D float fneg flt fstr args p _ _ Hvalid Hrun)
      as (st' & Hmain & _).
    eexists; eexists. split; [exact Hmain|]. split; [reflexivity|].
    unfold Cli.written. destruct (concat per_page) as [|a l]; [now left|].
    destruct (Cli.to_csv D _ _); [|now left].
    right. eexists. split; [reflexivity | discriminate].
  - destruct (main_invalid_run W D float fneg flt fstr args p Hvalid)
      as (st' & Hmain & _).
    exists (Cli.mkProcess st' (Cli.files p)), []. split; [exact Hmain|].
    split; [cbn; now rewrite app_nil_r | now left].
Qed.

(** X23: when the run yields articles and the table can be written, [main]
    writes one file, [output/<output>], with one row per article, in the
    order of the run; it then prints the number of rows and, unless the
    report is turned off, the report, whose number of pages attempted is
    the limit asked for (not the number of pages requested) and whose
    errors are those of this run alone, at most one. *)
Theorem main_saves_and_reports :
  forall (W : world) (D : Cli.disk) (float : Type)
         (float_negative : float -> bool) (float_lt : float -> float -> bool)
         (float_str : float -> pystr) (args : Cli.Args float)
         (p : Cli.process) (articles : list Article) (st_end : state)
         (u : unit),
  Cli.valid float float_negative float_lt args = true ->
  scrape_all_pages W (Cli.started float float_str args (Cli.scraper p))
    = (Ret articles, st_end) ->
  articles <> [] ->
  Cli.to_csv D (str "output/" ++ Cli.output args)
             (map Cli.article_row articles) = Ret u ->
  exists p',
    Cli.main W D float float_negative float_lt float_str args p = (Ret tt, p')
    /\ Cli.files p'
       = Cli.files p
           ++ [(str "output/" ++ Cli.output args,
                map Cli.article_row articles)]
    /\ only_printed st_end (Cli.scraper p')
         ((str "Saved " ++ str_of_nat (length articles)
             ++ str " articles to " ++ Cli.output args)
            :: (if Cli.no_report args then []
                else report_lines articles (Cli.pages args) (errors st_end)))
    /\ (length (errors st_end) <= 1)%nat.
Proof.
  intros W D float fneg flt fstr args p articles st_end u
         Hvalid Hrun Hne Hcsv.
  destruct (main_valid_run W D float fneg flt fstr args p _ _ Hvalid Hrun)
    as (st' & Hmain & Hprint).
  destruct (scrape_all_pages_full
              W (Cli.started float fstr args (Cli.scraper p)))
    as (per_page & st2 & evs & errs & Hrun2 & Hg & _ & _ & _ & _ & Herrs & _).
  rewrite Hrun in Hrun2. injection Hrun2 as Harts Hst. subst st2.
  destruct (started_state float fstr args (Cli.scraper p))
    as (Hmax & _ & Herr0 & _).
  pose proof (grows_max_pages _ _ _ _ Hg) as Hm. rewrite Hmax in Hm.
  pose proof (grows_errors _ _ _ _ Hg) as He. rewrite Herr0 in He.
  cbn [app] in He.
  unfold Cli.written, Cli.closing in *.
  destruct articles as [|a l]; [congruence|].
  rewrite Hcsv in Hmain, Hprint. rewrite Hm in Hprint.
  eexists. split; [exact Hmain|]. cbn [Cli.files Cli.scraper].
  split; [reflexivity|]. split; [exact Hprint|].
  rewrite He. exact Herrs.
Qed.

(** The sample site, five pages asked for: three articles are saved, after
    two pages requested, and the report says five pages attempted. *)
Lemma main_saves_and_reports_witness :
  exists p',
    Cli.main Samples.site Cli.writable Z (fun z => z <? 0) Z.ltb Cli.int_str
             (Cli.int_args 5 1 3 false) Cli.boot = (Ret tt, p')
    /\ map (fun file => (fst file, length (snd file))) (Cli.files p')
       = [(str "output/techcrunch_articles.csv", 3%nat)]
    /\ requested (trace (Cli.site_end false)) = [page_url 1; page_url 2]
    /\ only_printed (Cli.site_end false) (Cli.scraper p')
         (str "Saved 3 articles to techcrunch_articles.csv"
            :: report_lines (Cli.site_articles false) 5 []).
Proof.
  destruct (main_saves_and_reports
              Samples.site Cli.writable Z (fun z => z <? 0) Z.ltb Cli.int_str
              (Cli.int_args 5 1 3 false) Cli.boot
              (Cli.site_articles false) (Cli.site_end false) tt)
    as (p' & Hmain & Hfiles & Hprint & _).
  - reflexivity.
  - vm_compute. reflexivity.
  - vm_compute. discriminate.
  - reflexivity.
  - exists p'. split; [exact Hmain|]. split; [now rewrite Hfiles|].
    split; [vm_compute; reflexivity|]. exact Hprint.
Defined.

(** X24: when the run yields articles and the table cannot be written,
    [main] prints the error of the writing and stops: no file, no line
    about saved articles, no report; the error is not counted among the
    errors of the scraper. *)
Theorem main_reports_write_failure :
  forall (W : world) (D : Cli.disk) (float : Type)
         (float_negative : float -> bool) (float_lt : float -> float -> bool)
         (float_str : float -> pystr) (args : Cli.Args float)
         (p : Cli.process) (articles : list Article) (st_end : state)
         (msg : pystr),
  Cli.valid float float_negative float_lt args = true ->
  scrape_all_pages W (Cli.started float float_str args (Cli.scraper p))
    = (Ret articles, st_end) ->
  articles <> [] ->
  Cli.to_csv D (str "output/" ++ Cli.output args)
             (map Cli.article_row articles) = Raise msg ->
  exists p',
    Cli.main W D float float_negative float_lt float_str args p = (Ret tt, p')
    /\ Cli.files p' = Cli.files p
    /\ only_printed st_end (Cli.scraper p')
         [str "Scraping failed with error: " ++ msg].
Proof.
  intros W D float fneg flt fstr args p articles st_end msg
         Hvalid Hrun Hne Hcsv.
  destruct (main_valid_run W D float fneg flt fstr args p _ _ Hvalid Hrun)
    as (st' & Hmain & Hprint).
  unfold Cli.written, Cli.closing in *.
  destruct articles as [|a l]; [congruence|].
  rewrite Hcsv in Hmain, Hprint. rewrite app_nil_r in Hmain.
  eexists. split; [exact Hmain|]. split; [reflexivity | exact Hprint].
Qed.

(** The sample site, and no directory [output]. *)
Lemma main_reports_write_failure_witness :
  exists p',
    Cli.main Samples.site Cli.no_directory Z (fun z => z <? 0) Z.ltb
             Cli.int_str (Cli.int_args 5 1 3 false) Cli.boot = (Ret tt, p')
    /\ Cli.files p' = []
    /\ only_printed (Cli.site_end false) (Cli.scraper p')
         [str "Scraping failed with error: Cannot save file into a non-existent directory: 'output'"].
Proof.
  destruct (main_reports_write_failure
              Samples.site Cli.no_directory Z (fun z => z <? 0) Z.ltb
              Cli.int_str (Cli.int_args 5 1 3 false) Cli.boot
              (Cli.site_articles false) (Cli.site_end false)
              (str "Cannot save file into a non-existent directory: 'output'"))
    as (p' & Hmain & Hfiles & Hprint).
  - reflexivity.
  - vm_compute. reflexivity.
  - vm_compute. discriminate.
  - reflexivity.
  - exists p'. split; [exact Hmain|]. split; [exact Hfiles | exact Hprint].
Defined.

(** X25: with arguments it accepts, [main] requests the pages 1, 2, ..., n
    in this order, for some n from 1 to the number of pages asked for, and
    sleeps n - 1 times; so the first page is always requested, the scraper
    being inside its [async with] block. *)
Theorem main_requests_pages_in_order :
  forall (W : world) (D : Cli.disk) (float : Type)
         (float_negative : float -> bool) (float_lt : float -> float -> bool)
         (float_str : float -> pystr) (args : Cli.Args float)
         (p : Cli.process),
  Cli.valid float float_negative float_lt args = true ->
  exists p' (n : nat),
    Cli.main W D float float_negative float_lt float_str args p = (Ret tt, p')
    /\ (1 <= n)%nat /\ Z.of_nat n <= Cli.pages args
    /\ requested (trace (Cli.scraper p'))
       = requested (trace (Cli.scraper p))
           ++ map page_url (range 1 (1 + Z.of_nat n))
    /\ sleeps (trace (Cli.scraper p'))
       = (sleeps (trace (Cli.scraper p)) + (n - 1))%nat.
Proof.
  intros W D float fneg flt fstr args p Hvalid.
  destruct (scrape_all_pages_full
              W (Cli.started float fstr args (Cli.scraper p)))
    as (per_page & st_end & evs & errs & Hrun & Hg & Hn & _ & Hreq & _ & _
        & Hsl & Hstop).
  destruct (main_valid_run W D float fneg flt fstr args p _ _ Hvalid Hrun)
    as (st' & Hmain & (_ & _ & _ & _ & Ht)).
  destruct (started_state float fstr args (Cli.scraper p))
    as (Hmax & Hs & _ & Ht0).
  rewrite Hs in Hreq. rewrite Hmax in Hn, Hstop.
  assert (Hpos : 0 < Cli.pages args).
  { unfold Cli.valid in Hvalid. apply andb_true_iff in Hvalid.
    destruct Hvalid as [Hp _]. apply negb_true_iff in Hp. lia. }
  exists (Cli.mkProcess st' (Cli.files p ++ Cli.written float D args
                                         (concat per_page))),
         (length per_page).
  split; [exact Hmain|]. cbn [Cli.scraper].
  split.
  { destruct Hstop as [(Hlen & _) | (full & -> & _)].
    - lia.
    - rewrite length_app. cbn. lia. }
  split; [lia|].
  rewrite Ht, (grows_trace _ _ _ _ Hg), Ht0.
  rewrite !requested_app, !sleeps_app, !requested_prints, !sleeps_prints.
  rewrite Hreq, Hsl, !app_nil_r.
  split; [reflexivity|]. lia.
Qed.

(** The sample site, five pages asked for: pages 1 and 2, one sleep. *)
Lemma main_requests_pages_in_order_witness :
  exists p' (n : nat),
    Cli.main Samples.site Cli.writable Z (fun z => z <? 0) Z.ltb Cli.int_str
             (Cli.int_args 5 1 3 true) Cli.boot = (Ret tt, p')
    /\ (1 <= n)%nat /\ Z.of_nat n <= 5
    /\ requested (trace (Cli.scraper p'))
       = map page_url (range 1 (1 + Z.of_nat n)).
Proof.
  destruct (main_requests_pages_in_order
              Samples.site Cli.writable Z (fun z => z <? 0) Z.ltb Cli.int_str
              (Cli.int_args 5 1 3 true) Cli.boot eq_refl)
    as (p' & n & Hmain & H1 & Hn & Hreq & _).
  exists p', n. split; [exact Hmain|]. split; [exact H1|].
  split; [exact Hn | exact Hreq].
Defined.

(** X26: when the run yields no article, [main] writes no file and prints
    one line after the run, that no articles were scraped: neither the line
    of [save_articles_to_csv] for an empty list nor a report. *)
Theorem main_nothing_scraped :
  forall (W : world) (D : Cli.disk) (float : Type)
         (float_negative : float -> bool) (float_lt : float -> float -> bool)
         (float_str : float -> pystr) (args : Cli.Args float)
         (p : Cli.process) (st_end : state),
  Cli.valid float float_negative float_lt args = true ->
  scrape_all_pages W (Cli.started float float_str args (Cli.scraper p))
    = (Ret [], st_end) ->
  exists p',
    Cli.main W D float float_negative float_lt float_str args p = (Ret tt, p')
    /\ Cli.files p' = Cli.files p
    /\ only_printed st_end (Cli.scraper p')
         [str "No articles were scraped successfully."].
Proof.
  intros W D float fneg flt fstr args p st_end Hvalid Hrun.
  destruct (main_valid_run W D float fneg flt fstr args p _ _ Hvalid Hrun)
    as (st' & Hmain & Hprint).
  cbn [Cli.written Cli.closing] in *. rewrite app_nil_r in Hmain.
  eexists. split; [exact Hmain|]. split; [reflexivity | exact Hprint].
Qed.

(** The server answers 503 to everything. *)
Lemma main_nothing_scraped_witness :
  exists p',
    Cli.main Samples.unavailable Cli.writable Z (fun z => z <? 0) Z.ltb
             Cli.int_str (Cli.int_args 5 1 3 false) Cli.boot = (Ret tt, p')
    /\ Cli.files p' = []
    /\ printed (trace (Cli.scraper p'))
       = printed (trace (snd (scrape_all_pages Samples.unavailable
                                (Cli.started Z Cli.int_str
                                   (Cli.int_args 5 1 3 false)
                                   (Cli.scraper Cli.boot)))))
           ++ [str "No articles were scraped successfully."].
Proof.
  destruct (main_nothing_scraped
              Samples.unavailable Cli.writable Z (fun z => z <? 0) Z.ltb
              Cli.int_str (Cli.int_args 5 1 3 false) Cli.boot
              (snd (scrape_all_pages Samples.unavailable
                      (Cli.started Z Cli.int_str (Cli.int_args 5 1 3 false)
                                   (Cli.scraper Cli.boot)))))
    as (p' & Hmain & Hfiles & (_ & _ & _ & _ & Ht)).
  - reflexivity.
  - vm_compute. reflexivity.
  - exists p'. split; [exact Hmain|]. split; [exact Hfiles|].
    now rewrite Ht, printed_app.
Defined.
